(** * The cart drawer controller of the Beardless Cub theme

    A shallow embedding of [assets/cart.js] (class [CartDrawer]) and the
    properties of its drawer state machine, request guard, rendering and
    input handling.

    Conventions of the embedding.
    - A JavaScript number that the controller computes with is an integer or
      [NaN]: type [Number].  Money amounts are integers of minor units.
      An integer stands for the number of that value, which JavaScript
      holds and computes with exactly below [2^53] in magnitude; a property
      that depends on the digits or on the sum of numbers states its bound.
    - Strings that the source splices into markup or into a selector are
      taken as they are; a property that depends on how the browser reads
      them back is stated for [plain] strings.
    - The page is a record [World]: the fields of the controller instance
      together with the part of the document the controller reads and
      writes.  What a selector query returns is a field of the page.
    - An [async] method is a resumption: it runs on the world until it
      finishes or suspends at an [await], see [Step].  Other handlers may
      run on the world while it is suspended.
    - Timers ([setTimeout], [requestAnimationFrame]) are outside the model:
      a toast is recorded when it is appended to the document. *)

From Stdlib Require Import ZArith QArith Qround Qabs List String Ascii Bool Lia Arith.
Import ListNotations.

Local Open Scope string_scope.
Local Open Scope Z_scope.

(** ** Strings *)

Module Str.

Fixpoint take (n : nat) (s : string) : string :=
  match n, s with
  | S n', String c r => String c (take n' r)
  | _, _ => EmptyString
  end.

Fixpoint drop (n : nat) (s : string) : string :=
  match n, s with
  | S n', String _ r => drop n' r
  | _, _ => s
  end.

Fixpoint repeat (c : ascii) (n : nat) : string :=
  match n with
  | O => EmptyString
  | S n' => String c (repeat c n')
  end.

(** [s.startsWith(p)] *)
Definition startsWith (p s : string) : bool := String.prefix p s.

(** [s.replace(p, '')] with a string pattern: the first occurrence only. *)
Fixpoint remove_first (p s : string) : string :=
  if String.prefix p s then drop (String.length p) s
  else match s with
       | EmptyString => EmptyString
       | String c r => String c (remove_first p r)
       end.

(** [s.replace(p, t)] with a string pattern [p] and a replacement [t]
    without [$] patterns. *)
Fixpoint replace_first (p t s : string) : string :=
  if String.prefix p s then t ++ drop (String.length p) s
  else match s with
       | EmptyString => EmptyString
       | String c r => String c (replace_first p t r)
       end.

Definition is_empty (s : string) : bool :=
  match s with EmptyString => true | _ => false end.

End Str.

(** ** Numbers *)

(** The numbers of the controller: [parseInt] yields an integer or [NaN]. *)
Inductive Number : Type :=
| NaN
| Num (z : Z).

Definition Number_eqb (a b : Number) : bool :=
  match a, b with
  | NaN, NaN => true
  | Num x, Num y => x =? y
  | _, _ => false
  end.

(** [a + b], for integers whose sum JavaScript computes exactly: both and
    the sum within [2^53] in magnitude. *)
Definition num_add (a b : Number) : Number :=
  match a, b with
  | Num x, Num y => Num (x + y)
  | _, _ => NaN
  end.

(** [Math.max(a, b)]: [NaN] if either argument is. *)
Definition Math_max (a b : Number) : Number :=
  match a, b with
  | Num x, Num y => Num (Z.max x y)
  | _, _ => NaN
  end.

(** [a >= b]: false when either side is [NaN]. *)
Definition num_ge (a b : Number) : bool :=
  match a, b with
  | Num x, Num y => y <=? x
  | _, _ => false
  end.

Definition digit_char (d : Z) : ascii := ascii_of_nat (48 + Z.to_nat d).

Fixpoint digits_from (fuel : nat) (n : Z) (acc : string) : string :=
  match fuel with
  | O => acc
  | S fuel' =>
      let acc' := String (digit_char (n mod 10)) acc in
      if n / 10 =? 0 then acc' else digits_from fuel' (n / 10) acc'
  end.

(** The decimal digits of a non-negative integer, most significant first. *)
Definition decimal (n : Z) : string :=
  digits_from (S (Z.to_nat (Z.log2 n))) n "".

(** [String(n)] for an integer that a JavaScript number holds exactly and
    writes in full, which it does below [2^53] in magnitude (from [10^21]
    on it writes an exponent instead). *)
Definition string_of_Z (n : Z) : string :=
  if n <? 0 then "-" ++ decimal (- n) else decimal n.

(** [String(n)] *)
Definition string_of_Number (n : Number) : string :=
  match n with
  | NaN => "NaN"
  | Num z => string_of_Z z
  end.

(** *** parseInt(s, 10) *)

Definition is_space (c : ascii) : bool :=
  let n := nat_of_ascii c in
  ((n =? 32) || ((9 <=? n) && (n <=? 13)))%nat.

Fixpoint trim_start (s : string) : string :=
  match s with
  | String c r => if is_space c then trim_start r else s
  | EmptyString => s
  end.

Definition digit_value (c : ascii) : option Z :=
  let n := nat_of_ascii c in
  if ((48 <=? n) && (n <=? 57))%nat then Some (Z.of_nat (n - 48)) else None.

(** The value of the longest prefix of decimal digits, [None] when the
    prefix is empty. *)
Fixpoint parse_digits (s : string) (acc : option Z) : option Z :=
  match s with
  | String c r =>
      match digit_value c with
      | Some d =>
          parse_digits r (Some (10 * match acc with Some a => a | None => 0 end + d))
      | None => acc
      end
  | EmptyString => acc
  end.

(** [parseInt(s, 10)]: leading white space is skipped, then an optional
    sign, then the longest run of decimal digits; [NaN] without a digit. *)
Definition parseInt (s : string) : Number :=
  let t := trim_start s in
  let '(sign, body) :=
    match t with
    | String "-" r => (-1, r)
    | String "+" r => (1, r)
    | _ => (1, t)
    end in
  match parse_digits body None with
  | None => NaN
  | Some n => Num (sign * n)
  end.

(** [s || d] on strings: the empty string is falsy. *)
Definition or_default (s : option string) (d : string) : string :=
  match s with
  | Some (String c r) => String c r
  | _ => d
  end.

(** *** Number.prototype.toFixed

    [toFixed f x] for a rational [x] below [10^21] in magnitude: the
    integer [n] for which [n / 10^f - x] is as close to zero as possible
    (the larger one of two), written with the last [f] digits after the
    point.  From [10^21] on JavaScript writes an exponent instead, which
    this function does not.

    [formatMoney] applies it to [cents / 100], which JavaScript computes in
    binary floating point and this model in the rationals.  The two agree
    for an integer [cents] below [2^52] in magnitude: the computed quotient
    is within [cents / 100 * 2^-53], less than half a hundredth, of
    [cents / 100], so the nearest hundredth is [cents / 100] itself.  Above
    that bound they can differ in the last digit, and what is proved of
    the digits of [formatMoney] is proved below the bound only. *)
Definition toFixed (f : nat) (x : Q) : string :=
  let s := if Qlt_le_dec x 0 then "-" else "" in
  let x := Qabs x in
  let n := Qfloor (x * inject_Z (10 ^ Z.of_nat f) + (1 # 2)) in
  let m := decimal n in
  let m :=
    match f with
    | O => m
    | _ =>
        let k := String.length m in
        let m := if (k <=? f)%nat then Str.repeat "0" (f + 1 - k) ++ m else m in
        let k := String.length m in
        Str.take (k - f) m ++ "." ++ Str.drop (k - f) m
    end in
  s ++ m.

(** [formatMoney(cents)] *)
Definition formatMoney (cents : Z) : string :=
  let amount := toFixed 2 (cents # 100) in
  "$" ++ amount.

(** ** Data model: the cart of the HTTP boundary *)

Record LineItem : Type := {
  key : string;
  variant_id : Z;
  quantity : Z;
  title : string;
  product_title : string;
  variant_title : option string;
  final_line_price : Z;
  image : option string;
  url : string
}.

Record Cart : Type := {
  item_count : Z;
  total_price : Z;
  items : list LineItem
}.

(** What an operation resolves with: a cart, [null], or [undefined]. *)
Inductive Result : Type :=
| RCart (cart : Cart)
| RNull
| RUndefined.

(** ** The page *)

Definition Element := nat.

(** The drawer root with the attributes and the class the controller sets. *)
Record DrawerEl : Type := {
  drawer_node : Element;
  data_drawer_open : option string;
  aria_hidden : option string;
  loading : bool
}.

Record Badge : Type := {
  badge_textContent : string;
  badge_display : string
}.

(** One rendered line of the items list: the slots of the markup that
    [renderItem] fills.  [block_image] is the source and the alternative
    text of the image, [None] for the placeholder; [block_value] is the
    value attribute of the quantity field. *)
Record ItemBlock : Type := {
  block_key : string;
  block_image : option (string * string);
  block_href : string;
  block_title : string;
  block_variant : option string;
  block_price : string;
  block_value : string;
  block_remove_label : string
}.

Record Toast : Type := {
  toast_className : string;
  toast_textContent : string;
  toast_role : string
}.

Record BodyEl : Type := {
  body_drawer_open : option string;
  position : string;
  top : string;
  width : string;
  toasts : list Toast
}.

Record SubmitBtn : Type := {
  disabled : bool;
  textContent : string;
  originalText : option string
}.

(** The notifications dispatched on the document. *)
Inductive CustomEvent : Type :=
| cart_item_added (variantId : option string) (quantity : Number) (cart : Result)
| cart_updated (cart : Cart).

(** The scalar fields of the controller instance. *)
Record Controller : Type := {
  isOpen : bool;
  isUpdating : bool;
  lastActiveElement : option Element;
  scrollPosition : Z
}.

(** The elements the constructor looks up, [None] where the page has none,
    each with the state the controller writes. *)
Record Elements : Type := {
  drawer : option DrawerEl;
  overlay : option bool;
  itemsContainer : option (list ItemBlock);
  subtotalElement : option string;
  countElements : list Badge;
  emptyMessage : option string;
  cartContent : option string
}.

(** The rest of the document and the window.
    - [focusable]: the elements inside the drawer that the selector of
      [getFocusableElements] matches, in document order;
    - [contains]: [document.contains];
    - [cart_toggle]: [document.querySelector('[data-cart-toggle]')];
    - [quantity_inputs]: the quantity fields inside the drawer, each with
      its [data-key] and its current value, in document order;
    - [submit_button]: the submit control of a form, by the node of the
      form;
    - [dispatched], [console]: the events dispatched on the document and
      the errors logged so far.
    What the selector queries return is given by these fields; it is not
    derived from the markup of the items list. *)
Record Document : Type := {
  body : BodyEl;
  activeElement : Element;
  scrollY : Z;
  focusable : list Element;
  contains : Element -> bool;
  cart_toggle : option Element;
  quantity_inputs : list (string * string);
  submit_button : nat -> option SubmitBtn;
  dispatched : list CustomEvent;
  console : list (string * string)
}.

Record World : Type := {
  this : Controller;
  els : Elements;
  doc : Document
}.

(** *** Field updates *)

Definition with_this (f : Controller -> Controller) (w : World) : World :=
  {| this := f (this w); els := els w; doc := doc w |}.

Definition with_els (f : Elements -> Elements) (w : World) : World :=
  {| this := this w; els := f (els w); doc := doc w |}.

Definition with_doc (f : Document -> Document) (w : World) : World :=
  {| this := this w; els := els w; doc := f (doc w) |}.

Definition set_isOpen (b : bool) : World -> World :=
  with_this (fun c =>
    {| isOpen := b; isUpdating := isUpdating c;
       lastActiveElement := lastActiveElement c;
       scrollPosition := scrollPosition c |}).

Definition set_isUpdating (b : bool) : World -> World :=
  with_this (fun c =>
    {| isOpen := isOpen c; isUpdating := b;
       lastActiveElement := lastActiveElement c;
       scrollPosition := scrollPosition c |}).

Definition set_lastActiveElement (e : option Element) : World -> World :=
  with_this (fun c =>
    {| isOpen := isOpen c; isUpdating := isUpdating c;
       lastActiveElement := e;
       scrollPosition := scrollPosition c |}).

Definition set_scrollPosition (z : Z) : World -> World :=
  with_this (fun c =>
    {| isOpen := isOpen c; isUpdating := isUpdating c;
       lastActiveElement := lastActiveElement c;
       scrollPosition := z |}).

Definition with_drawer (f : DrawerEl -> DrawerEl) : World -> World :=
  with_els (fun e =>
    {| drawer := option_map f (drawer e); overlay := overlay e;
       itemsContainer := itemsContainer e;
       subtotalElement := subtotalElement e;
       countElements := countElements e;
       emptyMessage := emptyMessage e; cartContent := cartContent e |}).

Definition set_data_drawer_open (v : string) : World -> World :=
  with_drawer (fun d =>
    {| drawer_node := drawer_node d; data_drawer_open := Some v;
       aria_hidden := aria_hidden d; loading := loading d |}).

Definition set_aria_hidden (v : string) : World -> World :=
  with_drawer (fun d =>
    {| drawer_node := drawer_node d; data_drawer_open := data_drawer_open d;
       aria_hidden := Some v; loading := loading d |}).

Definition set_loading_class (b : bool) : World -> World :=
  with_drawer (fun d =>
    {| drawer_node := drawer_node d; data_drawer_open := data_drawer_open d;
       aria_hidden := aria_hidden d; loading := b |}).

Definition set_overlay_visible (b : bool) : World -> World :=
  with_els (fun e =>
    {| drawer := drawer e; overlay := option_map (fun _ => b) (overlay e);
       itemsContainer := itemsContainer e;
       subtotalElement := subtotalElement e;
       countElements := countElements e;
       emptyMessage := emptyMessage e; cartContent := cartContent e |}).

Definition with_body (f : BodyEl -> BodyEl) : World -> World :=
  with_doc (fun d =>
    {| body := f (body d); activeElement := activeElement d;
       scrollY := scrollY d; focusable := focusable d;
       contains := contains d; cart_toggle := cart_toggle d;
       quantity_inputs := quantity_inputs d;
       submit_button := submit_button d;
       dispatched := dispatched d; console := console d |}).

Definition set_body_drawer_open (v : option string) : World -> World :=
  with_body (fun b =>
    {| body_drawer_open := v; position := position b; top := top b;
       width := width b; toasts := toasts b |}).

Definition set_body_style (p t wd : string) : World -> World :=
  with_body (fun b =>
    {| body_drawer_open := body_drawer_open b; position := p; top := t;
       width := wd; toasts := toasts b |}).

Definition appendChild_toast (t : Toast) : World -> World :=
  with_body (fun b =>
    {| body_drawer_open := body_drawer_open b; position := position b;
       top := top b; width := width b; toasts := toasts b ++ [t] |}).

Definition set_activeElement (e : Element) : World -> World :=
  with_doc (fun d =>
    {| body := body d; activeElement := e;
       scrollY := scrollY d; focusable := focusable d;
       contains := contains d; cart_toggle := cart_toggle d;
       quantity_inputs := quantity_inputs d;
       submit_button := submit_button d;
       dispatched := dispatched d; console := console d |}).

Definition set_scrollY (z : Z) : World -> World :=
  with_doc (fun d =>
    {| body := body d; activeElement := activeElement d;
       scrollY := z; focusable := focusable d;
       contains := contains d; cart_toggle := cart_toggle d;
       quantity_inputs := quantity_inputs d;
       submit_button := submit_button d;
       dispatched := dispatched d; console := console d |}).

Definition set_submit_button (form : nat) (b : SubmitBtn) : World -> World :=
  with_doc (fun d =>
    {| body := body d; activeElement := activeElement d;
       scrollY := scrollY d; focusable := focusable d;
       contains := contains d; cart_toggle := cart_toggle d;
       quantity_inputs := quantity_inputs d;
       submit_button :=
         (fun n => if (n =? form)%nat then Some b else submit_button d n);
       dispatched := dispatched d; console := console d |}).

(** [document.dispatchEvent(new CustomEvent(...))] *)
Definition dispatchEvent (ev : CustomEvent) : World -> World :=
  with_doc (fun d =>
    {| body := body d; activeElement := activeElement d;
       scrollY := scrollY d; focusable := focusable d;
       contains := contains d; cart_toggle := cart_toggle d;
       quantity_inputs := quantity_inputs d;
       submit_button := submit_button d;
       dispatched := dispatched d ++ [ev]; console := console d |}).

(** [console.error(label, error)] *)
Definition console_error (label message : string) : World -> World :=
  with_doc (fun d =>
    {| body := body d; activeElement := activeElement d;
       scrollY := scrollY d; focusable := focusable d;
       contains := contains d; cart_toggle := cart_toggle d;
       quantity_inputs := quantity_inputs d;
       submit_button := submit_button d;
       dispatched := dispatched d;
       console := console d ++ [(label, message)] |}).

Notation "w |> f" := (f w) (at level 45, left associativity, only parsing).

(** ** Synchronous methods *)

(** [el.focus({ preventScroll: true })], with the plain [el.focus()] of the
    [catch] branch: either way the element becomes the active one. *)
Definition focus (e : Element) : World -> World := set_activeElement e.

(** [setLoading(loading)] *)
Definition setLoading (b : bool) : World -> World := set_loading_class b.

(** The toast that [showError] creates. *)
Definition error_toast (message : string) : Toast :=
  {| toast_className := "cart-toast cart-toast--error";
     toast_textContent := message;
     toast_role := "alert" |}.

(** [showError(message)]: the toast appended to the body.  Its entrance
    and its removal after the delay are left to the timers. *)
Definition showError (message : string) : World -> World :=
  appendChild_toast (error_toast message).

(** [lockScroll()] *)
Definition lockScroll (w : World) : World :=
  let w := set_scrollPosition (scrollY (doc w)) w in
  set_body_style "fixed"
    ("-" ++ string_of_Z (scrollPosition (this w)) ++ "px") "100%" w.

(** [unlockScroll()] *)
Definition unlockScroll (w : World) : World :=
  let y := scrollPosition (this w) in
  w |> set_body_style "" "" "" |> set_scrollY y.

(** [getFocusableElements()] *)
Definition getFocusableElements (w : World) : list Element :=
  match drawer (els w) with
  | None => []
  | Some _ => focusable (doc w)
  end.

(** [open()] *)
Definition open (w : World) : World :=
  match drawer (els w) with
  | None => w
  | Some d =>
      let w :=
        w |> set_lastActiveElement (Some (activeElement (doc w)))
          |> set_isOpen true
          |> set_data_drawer_open "true"
          |> set_overlay_visible true
          |> set_body_drawer_open (Some "true")
          |> lockScroll
          |> set_aria_hidden "false" in
      let firstFocusable :=
        match getFocusableElements w with
        | e :: _ => e
        | [] => drawer_node d
        end in
      focus firstFocusable w
  end.

(** [close()] *)
Definition close (w : World) : World :=
  match drawer (els w) with
  | None => w
  | Some d =>
      let w :=
        w |> set_isOpen false
          |> set_data_drawer_open "false"
          |> set_overlay_visible false
          |> set_body_drawer_open None
          |> set_aria_hidden "true"
          |> unlockScroll in
      let target :=
        match lastActiveElement (this w) with
        | Some e => if contains (doc w) e then Some e else cart_toggle (doc w)
        | None => cart_toggle (doc w)
        end in
      match target with
      | Some e => focus e w
      | None => w
      end
  end.

(** [toggle()] *)
Definition toggle (w : World) : World :=
  if isOpen (this w) then close w else open w.

(** *** Rendering *)

Definition size_names : list string :=
  ["pico"; "icon"; "thumb"; "small"; "compact"; "medium"; "large";
   "grande"; "original"; "master"].

(** A match of [(pico|icon|...|master)?\.] at the head of [s]: what follows
    the match. *)
Definition match_size_dot (s : string) : option string :=
  match
    find (fun n => String.prefix (n ++ ".") s) size_names
  with
  | Some n => Some (Str.drop (String.length n + 1) s)
  | None =>
      match s with
      | String "." r => Some r
      | _ => None
      end
  end.

(** The first match of the pattern of [getSizedImage] replaced. *)
Fixpoint replace_size (size s : string) : option string :=
  match s with
  | EmptyString => None
  | String c r =>
      match (if Ascii.eqb c "_" then match_size_dot r else None) with
      | Some rest => Some ("_" ++ size ++ "." ++ rest)
      | None => option_map (String c) (replace_size size r)
      end
  end.

(** [getSizedImage(url, size)], for a [size] without [$], which
    [String.prototype.replace] would read as a pattern of the replacement. *)
Definition getSizedImage (url size : string) : string :=
  if Str.is_empty url then ""
  else match replace_size size url with
       | Some u => u
       | None => url
       end.

(** [renderItem(item)].  The source returns markup as a string, with the
    fields of the line spliced in unescaped; the model returns the slots of
    that markup, which is what the browser reads out of it when the
    spliced strings are [plain] (below), and need not be otherwise. *)
Definition renderItem (item : LineItem) : ItemBlock :=
  let variantTitle :=
    match variant_title item with
    | Some (String c r) =>
        if String.eqb (String c r) "Default Title" then "" else String c r
    | _ => ""
    end in
  {| block_key := key item;
     block_image :=
       match image item with
       | Some (String c r) =>
           Some (getSizedImage (String c r) "120x", title item)
       | _ => None
       end;
     block_href := url item;
     block_title := product_title item;
     block_variant :=
       if Str.is_empty variantTitle then None else Some variantTitle;
     block_price := formatMoney (final_line_price item);
     block_value := string_of_Z (quantity item);
     block_remove_label := "Remove " ++ title item |}.

(** [renderCart(cart)].  The model records what the controller writes to
    the elements it holds.  Replacing the items also replaces the quantity
    fields and the controls of the list, which the document answers
    queries with ([quantity_inputs], [focusable]): the model leaves [doc]
    as it was, and whoever reads those answers after a render states them
    as a hypothesis. *)
Definition renderCart (cart : Cart) : World -> World :=
  with_els (fun e =>
    let both := match emptyMessage e, cartContent e with
                | Some _, Some _ => true
                | _, _ => false
                end in
    {| drawer := drawer e;
       overlay := overlay e;
       itemsContainer :=
         option_map (fun _ => map renderItem (items cart)) (itemsContainer e);
       subtotalElement :=
         option_map (fun _ => formatMoney (total_price cart))
           (subtotalElement e);
       countElements :=
         map (fun _ =>
                {| badge_textContent := string_of_Z (item_count cart);
                   badge_display :=
                     if 0 <? item_count cart then "" else "none" |})
             (countElements e);
       emptyMessage :=
         if both
         then Some (if item_count cart =? 0 then "" else "none")
         else emptyMessage e;
       cartContent :=
         if both
         then Some (if item_count cart =? 0 then "none" else "")
         else cartContent e |}).

(** ** Asynchronous methods *)

(** *** The HTTP boundary *)

Inductive Request : Type :=
| GET_cart
| POST_add (id : option string) (quantity : Number)
    (properties : list (string * string))
| POST_change (id : string) (quantity : Number).

(** The JSON a success response carries, by the boundary's contract. *)
Definition Payload (r : Request) : Type :=
  match r with
  | GET_cart => Cart
  | POST_add _ _ _ => LineItem
  | POST_change _ _ => Cart
  end.

(** What [response.json()] settles with. *)
Inductive Parsed (T : Type) : Type :=
| SyntaxError (message : string)
| Value (v : T).
Arguments SyntaxError {T} message.
Arguments Value {T} v.

(** The object a failure response describes the error with. *)
Record ErrorBody : Type := { description : option string }.

(** A response, by [response.ok]. *)
Inductive Response (T : Type) : Type :=
| Ok (body_json : Parsed T)
| NotOk (body_json : Parsed ErrorBody).
Arguments Ok {T} body_json.
Arguments NotOk {T} body_json.

(** What the promise of [fetch] settles with. *)
Inductive FetchOutcome (T : Type) : Type :=
| Rejected (message : string)
| Responded (response : Response T).
Arguments Rejected {T} message.
Arguments Responded {T} response.

(** *** Resumptions *)

Inductive Completion (A : Type) : Type :=
| Normal (a : A)
| Throw (message : string).
Arguments Normal {A} a.
Arguments Throw {A} message.

(** A method call in progress: finished, or suspended at an [await] with
    the world it leaves behind and what it does once resumed, on the world
    of that moment. *)
Inductive Step (A : Type) : Type :=
| Finished (c : Completion A) (w : World)
| AwaitFetch (req : Request) (w : World)
    (k : FetchOutcome (Payload req) -> World -> Step A)
| AwaitJson (w : World) (k : World -> Step A).
Arguments Finished {A} c w.
Arguments AwaitFetch {A} req w k.
Arguments AwaitJson {A} w k.

Definition Task (A : Type) : Type := World -> Step A.

Fixpoint andThen {A B : Type} (s : Step A) (f : Completion A -> Task B)
  : Step B :=
  match s with
  | Finished c w => f c w
  | AwaitFetch req w k => AwaitFetch req w (fun o w' => andThen (k o w') f)
  | AwaitJson w k => AwaitJson w (fun w' => andThen (k w') f)
  end.

Definition ret {A : Type} (a : A) : Task A :=
  fun w => Finished (Normal a) w.

Definition throw {A : Type} (message : string) : Task A :=
  fun w => Finished (Throw message) w.

Definition bind {A B : Type} (m : Task A) (f : A -> Task B) : Task B :=
  fun w =>
    andThen (m w)
      (fun c => match c with
                | Normal a => f a
                | Throw e => throw e
                end).

(** A synchronous statement. *)
Definition exec (f : World -> World) : Task unit :=
  fun w => Finished (Normal tt) (f w).

(** [try { m } catch (error) { h error.message }] *)
Definition try_catch {A : Type} (m : Task A) (h : string -> Task A)
  : Task A :=
  fun w =>
    andThen (m w)
      (fun c => match c with
                | Normal a => ret a
                | Throw e => h e
                end).

(** [try { m } finally { f }] *)
Definition try_finally {A : Type} (m : Task A) (f : World -> World)
  : Task A :=
  fun w => andThen (m w) (fun c w' => Finished c (f w')).

(** [await fetch(...)] *)
Definition fetch (req : Request) : Task (Response (Payload req)) :=
  fun w =>
    AwaitFetch req w
      (fun o w' =>
         match o with
         | Rejected e => Finished (Throw e) w'
         | Responded r => Finished (Normal r) w'
         end).

(** [await response.json()] *)
Definition json {T : Type} (b : Parsed T) : Task T :=
  fun w =>
    AwaitJson w
      (fun w' =>
         match b with
         | SyntaxError e => Finished (Throw e) w'
         | Value v => Finished (Normal v) w'
         end).

Notation "x <- m ;; k" := (bind m (fun x => k))
  (at level 61, m at next level, right associativity).
Notation "m ;;; k" := (bind m (fun _ => k))
  (at level 61, right associativity).

(** *** The operations *)

(** [fetchCart()] *)
Definition fetchCart : Task Result :=
  try_catch
    (response <- fetch GET_cart ;;
     match response with
     | NotOk _ => throw "Failed to fetch cart"
     | Ok b =>
         cart <- json b ;;
         exec (renderCart cart) ;;;
         ret (RCart cart)
     end)
    (fun error =>
       exec (console_error "Cart fetch error:" error) ;;;
       ret RNull).

(** [addItem(variantId, quantity, properties)] *)
Definition addItem (variantId : option string) (quantity : Number)
    (properties : list (string * string)) : Task Result :=
  fun w =>
    if isUpdating (this w) then ret RUndefined w
    else
      (exec (set_isUpdating true) ;;;
       exec (setLoading true) ;;;
       try_finally
         (try_catch
            (response <- fetch (POST_add variantId quantity properties) ;;
             match response with
             | NotOk b =>
                 error <- json b ;;
                 throw (or_default (description error) "Failed to add item")
             | Ok _ =>
                 cart <- fetchCart ;;
                 exec open ;;;
                 exec (dispatchEvent
                         (cart_item_added variantId quantity cart)) ;;;
                 ret cart
             end)
            (fun error =>
               exec (console_error "Add to cart error:" error) ;;;
               exec (showError error) ;;;
               ret RNull))
         (fun w => w |> set_isUpdating false |> setLoading false)) w.

(** [addItem(variantId)], the other parameters at their defaults. *)
Definition addItem_default (variantId : option string) : Task Result :=
  addItem variantId (Num 1) [].

(** [updateItem(key, quantity)] *)
Definition updateItem (key : string) (quantity : Number) : Task Result :=
  fun w =>
    if isUpdating (this w) then ret RUndefined w
    else
      (exec (set_isUpdating true) ;;;
       exec (setLoading true) ;;;
       try_finally
         (try_catch
            (response <- fetch (POST_change key quantity) ;;
             match response with
             | NotOk _ => throw "Failed to update item"
             | Ok b =>
                 cart <- json b ;;
                 exec (renderCart cart) ;;;
                 exec (dispatchEvent (cart_updated cart)) ;;;
                 ret (RCart cart)
             end)
            (fun error =>
               exec (console_error "Update cart error:" error) ;;;
               exec (showError "Failed to update cart") ;;;
               ret RNull))
         (fun w => w |> set_isUpdating false |> setLoading false)) w.

(** [removeItem(key)] *)
Definition removeItem (key : string) : Task Result :=
  updateItem key (Num 0).

(** ** Event handling *)

(** A submitted form: its node and the entries of its [FormData]. *)
Record Form : Type := {
  form_node : nat;
  form_entries : list (string * string)
}.

(** [formData.get(name)] *)
Definition formData_get (name : string) (fd : list (string * string))
  : option string :=
  option_map snd (find (fun e => String.eqb (fst e) name) fd).

(** An object made by [{}], with string values, is the list of its own
    properties in the order in which JavaScript enumerates them, and
    [JSON.stringify] writes them: the names that are array indices first,
    in ascending order, then the other names in the order of their
    creation. *)

Fixpoint all_digits (s : string) : bool :=
  match s with
  | EmptyString => true
  | String c r =>
      match digit_value c with
      | Some _ => all_digits r
      | None => false
      end
  end.

(** The array index that a property name is: the decimal text, without a
    leading zero, of an integer from 0 to [2^32 - 2]. *)
Definition array_index (k : string) : option Z :=
  match k with
  | EmptyString => None
  | String c r =>
      if all_digits k && (negb (Ascii.eqb c "0") || Str.is_empty r)
      then match parse_digits k None with
           | Some n => if n <? 2 ^ 32 - 1 then Some n else None
           | None => None
           end
      else None
  end.

(** The value of an existing property replaced, where it stands. *)
Fixpoint own_replace (k v : string) (o : list (string * string))
  : list (string * string) :=
  match o with
  | [] => []
  | (k', v') :: r =>
      if String.eqb k' k then (k, v) :: r else (k', v') :: own_replace k v r
  end.

(** A new property with the array index [n] put after the smaller indices. *)
Fixpoint own_insert (n : Z) (k v : string) (o : list (string * string))
  : list (string * string) :=
  match o with
  | [] => [(k, v)]
  | (k', v') :: r =>
      match array_index k' with
      | Some m => if m <? n then (k', v') :: own_insert n k v r
                  else (k, v) :: o
      | None => (k, v) :: o
      end
  end.

(** An own property set: replaced if the object has it, created if not. *)
Definition own_set (k v : string) (o : list (string * string))
  : list (string * string) :=
  if existsb (fun e => String.eqb (fst e) k) o then own_replace k v o
  else match array_index k with
       | Some n => own_insert n k v o
       | None => (o ++ [(k, v)])%list
       end.

(** [obj[k] = v] for a string [v].  The name [__proto__] is the accessor
    inherited from [Object.prototype], whose setter ignores a value that
    is neither an object nor [null]: the assignment sets nothing. *)
Definition obj_set (k v : string) (o : list (string * string))
  : list (string * string) :=
  if String.eqb k "__proto__" then o else own_set k v o.

(** The loop of [handleAddToCart] over [formData.entries()]. *)
Definition collect_properties (fd : list (string * string))
  : list (string * string) :=
  fold_left
    (fun properties e =>
       if Str.startsWith "properties[" (fst e)
       then
         let propKey :=
           Str.remove_first "]" (Str.remove_first "properties[" (fst e)) in
         obj_set propKey (snd e) properties
       else properties)
    fd [].

(** [handleAddToCart(form)] *)
Definition handleAddToCart (form : Form) : Task unit :=
  fun w =>
    let formData := form_entries form in
    let variantId := formData_get "id" formData in
    let quantity :=
      parseInt (or_default (formData_get "quantity" formData) "1") in
    let properties := collect_properties formData in
    let submitBtn := submit_button (doc w) (form_node form) in
    (exec (match submitBtn with
           | Some b =>
               set_submit_button (form_node form)
                 {| disabled := true;
                    textContent := "Adding...";
                    originalText := Some (textContent b) |}
           | None => fun w => w
           end) ;;;
     _ <- addItem variantId quantity properties ;;
     exec (fun w' =>
             match submitBtn, submit_button (doc w') (form_node form) with
             | Some _, Some b =>
                 set_submit_button (form_node form)
                   {| disabled := false;
                      textContent :=
                        match originalText b with Some t => t | None => "" end;
                      originalText := originalText b |} w'
             | _, _ => w'
             end)) w.

(** [handleQuantityChange(button, change)], [key] being [button.dataset.key].
    The call of [updateItem] it starts is not awaited.

    The source finds the quantity field with the selector
    [[data-quantity-input][data-key="KEY"]]; the model looks it up by
    equality of keys, which is what the selector does for a [plain] key
    (below).  A key with a double quote, a backslash or a line break makes
    another selector, or none: what the source does then is not what this
    function does, and the properties of the stepper are stated for plain
    keys. *)
Definition handleQuantityChange (key : string) (change : Number)
  : Task Result :=
  fun w =>
    match drawer (els w) with
    | None => throw "TypeError: this.drawer is null" w
    | Some _ =>
        let input :=
          find (fun i => String.eqb (fst i) key) (quantity_inputs (doc w)) in
        let currentQty := parseInt (or_default (option_map snd input) "1") in
        let newQty := Math_max (Num 0) (num_add currentQty change) in
        updateItem key newQty w
    end.

(** [handleRemoveItem(button)] *)
Definition handleRemoveItem (key : string) : Task Result :=
  removeItem key.

(** What [e.target.closest(...)] finds for a click inside the drawer: the
    [data-key] of the control, for each of the three selectors. *)
Record Click : Type := {
  decrementBtn : option string;
  incrementBtn : option string;
  removeBtn : option string
}.

(** The delegated click listener of the drawer. *)
Definition drawer_click (e : Click) : Task Result :=
  fun w =>
    match drawer (els w) with
    | None => ret RUndefined w
    | Some _ =>
        match decrementBtn e, incrementBtn e, removeBtn e with
        | Some k, _, _ => handleQuantityChange k (Num (-1)) w
        | None, Some k, _ => handleQuantityChange k (Num 1) w
        | None, None, Some k => handleRemoveItem k w
        | None, None, None => ret RUndefined w
        end
    end.

(** The [change] listener of the drawer, for a quantity input with its
    [data-key] and its value. *)
Definition drawer_change (key value : string) : Task Result :=
  fun w =>
    match drawer (els w) with
    | None => ret RUndefined w
    | Some _ =>
        let quantity := parseInt value in
        if num_ge quantity (Num 0) then updateItem key quantity w
        else ret RUndefined w
    end.

Record KeyboardEvent : Type := {
  key_name : string;
  shiftKey : bool;
  defaultPrevented : bool
}.

Definition preventDefault (e : KeyboardEvent) : KeyboardEvent :=
  {| key_name := key_name e; shiftKey := shiftKey e;
     defaultPrevented := true |}.

(** [handleTabKey(e)] *)
Definition handleTabKey (e : KeyboardEvent) (w : World)
  : KeyboardEvent * World :=
  match getFocusableElements w with
  | [] => (preventDefault e, w)
  | first :: rest =>
      let last := List.last rest first in
      let active := activeElement (doc w) in
      if shiftKey e && (active =? first)%nat
      then (preventDefault e, focus last w)
      else if negb (shiftKey e) && (active =? last)%nat
      then (preventDefault e, focus first w)
      else (e, w)
  end.

(** The [keydown] listener of the drawer. *)
Definition drawer_keydown (e : KeyboardEvent) (w : World)
  : KeyboardEvent * World :=
  match drawer (els w) with
  | None => (e, w)
  | Some _ =>
      if String.eqb (key_name e) "Tab" && isOpen (this w)
      then handleTabKey e w
      else (e, w)
  end.

(** The [keydown] listener of the document. *)
Definition document_keydown (e : KeyboardEvent) (w : World) : World :=
  if String.eqb (key_name e) "Escape" && isOpen (this w)
  then close w
  else w.

(** The [submit] listener of the document, for a form whose action is the
    add endpoint. *)
Definition document_submit (form : Form) : Task unit :=
  handleAddToCart form.

(** The constructor: the fields at their initial values, then [init()],
    which starts the first fetch. *)
Definition construct : Task Result :=
  fun w =>
    fetchCart
      (with_this (fun _ =>
         {| isOpen := false; isUpdating := false;
            lastActiveElement := None; scrollPosition := 0 |}) w).

(** ** The environment *)

(** The boundary: what each request is answered with. *)
Definition Network : Type := forall req : Request, FetchOutcome (Payload req).

(** A call run to its end against a boundary, no other handler running in
    between: how it completes, the world it leaves, the requests it sent. *)
Fixpoint run {A : Type} (net : Network) (s : Step A)
  : Completion A * World * list Request :=
  match s with
  | Finished c w => (c, w, [])
  | AwaitFetch req w k =>
      let '(c, w', sent) := run net (k (net req) w) in
      (c, w', req :: sent)
  | AwaitJson w k => run net (k w)
  end.

(** [P] holds of the completion and the world of every way the call can
    end, whatever the boundary answers and whatever the world has become
    at each resumption. *)
Inductive Ends {A : Type} (P : Completion A -> World -> Prop)
  : Step A -> Prop :=
| Ends_finished c w : P c w -> Ends P (Finished c w)
| Ends_fetch req w k :
    (forall o w', Ends P (k o w')) -> Ends P (AwaitFetch req w k)
| Ends_json w k :
    (forall w', Ends P (k w')) -> Ends P (AwaitJson w k).

(** A response that fails: rejected before a response, or a status that is
    not a success. *)
Definition failing {T : Type} (o : FetchOutcome T) : bool :=
  match o with
  | Rejected _ => true
  | Responded (NotOk _) => true
  | Responded (Ok _) => false
  end.

(** The element after [e] in [l]. *)
Fixpoint successor (e : Element) (l : list Element) : option Element :=
  match l with
  | x :: r =>
      if (x =? e)%nat
      then match r with y :: _ => Some y | [] => None end
      else successor e r
  | [] => None
  end.

(** The browser's default action for Tab: the focus moves to the next
    element of the tab order, taken to be the order of the focusable
    elements of the drawer; [outside] is where it lands past the last. *)
Definition default_tab (outside : Element) (w : World) : World :=
  match successor (activeElement (doc w)) (focusable (doc w)) with
  | Some e => focus e w
  | None => focus outside w
  end.

(** One press of Tab inside the drawer: the listener, then the default
    action unless the listener prevented it. *)
Definition press_tab (outside : Element) (w : World) : World :=
  let e := {| key_name := "Tab"; shiftKey := false;
              defaultPrevented := false |} in
  let '(e', w') := drawer_keydown e w in
  if defaultPrevented e' then w' else default_tab outside w'.

(** [open()] and [close()] as calls. *)
Inductive Call : Type :=
| call_open
| call_close.

Definition perform (w : World) (c : Call) : World :=
  match c with
  | call_open => open w
  | call_close => close w
  end.

Definition intent (c : Call) : bool :=
  match c with
  | call_open => true
  | call_close => false
  end.

(** The loading indicator in lockstep with the request flag. *)
Definition lockstep (w : World) : Prop :=
  match drawer (els w) with
  | Some d => loading d = isUpdating (this w)
  | None => True
  end.

(** ** Sample pages and boundaries *)

Definition sample_item : LineItem :=
  {| key := "40912345:a1"; variant_id := 40912345; quantity := 2;
     title := "Beard Oil - 30ml"; product_title := "Beard Oil";
     variant_title := Some "30ml"; final_line_price := 4000;
     image := Some "https://cdn.shop.test/oil_large.jpg";
     url := "/products/beard-oil" |}.

Definition second_item : LineItem :=
  {| key := "777:b2"; variant_id := 777; quantity := 1;
     title := "Comb"; product_title := "Comb";
     variant_title := Some "Default Title"; final_line_price := 1250;
     image := None;
     url := "/products/comb" |}.

Definition sample_cart : Cart :=
  {| item_count := 2; total_price := 4000; items := [sample_item] |}.

(** A page that shows a cart of two lines, the drawer closed, the focus on
    the cart trigger; the quantity field of the second line has been
    edited to read ".5". *)
Definition sample_page : World :=
  {| this := {| isOpen := false; isUpdating := false;
                lastActiveElement := None; scrollPosition := 0 |};
     els := {| drawer := Some {| drawer_node := 1%nat;
                                 data_drawer_open := Some "false";
                                 aria_hidden := Some "true";
                                 loading := false |};
               overlay := Some false;
               itemsContainer :=
                 Some [renderItem sample_item; renderItem second_item];
               subtotalElement := Some "$52.50";
               countElements :=
                 [ {| badge_textContent := "3"; badge_display := "" |};
                   {| badge_textContent := "3"; badge_display := "" |} ];
               emptyMessage := Some "none";
               cartContent := Some "" |};
     doc := {| body := {| body_drawer_open := None; position := "";
                          top := ""; width := ""; toasts := [] |};
               activeElement := 9%nat;
               scrollY := 120;
               focusable := [2; 3; 4]%nat;
               contains := fun _ => true;
               cart_toggle := Some 9%nat;
               quantity_inputs := [("40912345:a1", "2"); ("777:b2", ".5")];
               submit_button := fun _ => None;
               dispatched := [];
               console := [] |} |}.

(** The sample page with a mutating call in flight. *)
Definition busy_page : World :=
  sample_page |> set_isUpdating true |> setLoading true.

(** The sample page with the drawer open and the focus on its first
    focusable element. *)
Definition open_page : World := open sample_page.

(** A boundary that rejects every request before a response. *)
Definition offline : Network := fun _ => Rejected "Failed to fetch".

(** A boundary that answers every request with a success. *)
Definition serving (cart : Cart) : Network :=
  fun req =>
    match req as r return FetchOutcome (Payload r) with
    | GET_cart => Responded (Ok (Value cart))
    | POST_add _ _ _ => Responded (Ok (Value sample_item))
    | POST_change _ _ => Responded (Ok (Value cart))
    end.

(** A boundary that refuses to add, with the given body, and serves the
    cart otherwise. *)
Definition refusing (b : Parsed ErrorBody) (cart : Cart) : Network :=
  fun req =>
    match req as r return FetchOutcome (Payload r) with
    | GET_cart => Responded (Ok (Value cart))
    | POST_add _ _ _ => Responded (NotOk b)
    | POST_change _ _ => Responded (Ok (Value cart))
    end.

(** A boundary that adds and then fails to serve the cart. *)
Definition adding_only : Network :=
  fun req =>
    match req as r return FetchOutcome (Payload r) with
    | GET_cart => Rejected "Failed to fetch"
    | POST_add _ _ _ => Responded (Ok (Value sample_item))
    | POST_change _ _ => Rejected "Failed to fetch"
    end.

(** ** The request guard, as a property of an operation *)

(** An operation is guarded when a call made while the flag is set finishes
    at once with [undefined] on an unchanged world, and a call made
    otherwise suspends at the request [req] with the flag set and, however
    it goes on, ends with the flag cleared. *)
Definition guarded (op : Task Result) (req : Request) : Prop :=
  (forall w, isUpdating (this w) = true ->
             op w = Finished (Normal RUndefined) w)
  /\ (forall w, isUpdating (this w) = false ->
        exists w1 k,
          op w = AwaitFetch req w1 k
          /\ isUpdating (this w1) = true
          /\ forall o w2,
               Ends (fun _ w' => isUpdating (this w') = false) (k o w2)).

(** The worlds that differ from [w] in the active element at most. *)
Definition refocused (w w' : World) : Prop :=
  this w' = this w /\ els w' = els w
  /\ focusable (doc w') = focusable (doc w).

(** ** The messages of failures *)

(** The message of the error that a failing request raises in [fetchCart]
    and [updateItem]: that of the rejection, or the one the method throws
    on a status that is not a success. *)
Definition request_error_message {T : Type} (thrown : string)
    (o : FetchOutcome T) : string :=
  match o with
  | Rejected m => m
  | Responded _ => thrown
  end.

(** The message of the error that a failing add request raises in
    [addItem]. *)
Definition add_error_message (o : FetchOutcome LineItem) : string :=
  match o with
  | Rejected m => m
  | Responded (NotOk (SyntaxError m)) => m
  | Responded (NotOk (Value e)) =>
      or_default (description e) "Failed to add item"
  | Responded (Ok _) => ""
  end.

(** The cart that [fetchCart] obtains from what its request is answered
    with, [None] when it fails. *)
Definition fetched (o : FetchOutcome Cart) : option Cart :=
  match o with
  | Responded (Ok (Value cart)) => Some cart
  | _ => None
  end.

(** What the panel shows: the badges, the subtotal, the items and the two
    regions of the empty state. *)
Definition rendered_panel (w : World) :=
  (countElements (els w), subtotalElement (els w), itemsContainer (els w),
   emptyMessage (els w), cartContent (els w)).

(** ** The other listeners of [bindEvents] *)

(** The click listener of a cart trigger. *)
Definition trigger_click : World -> World := toggle.

(** The click listener of a close button. *)
Definition close_click : World -> World := close.

(** The click listener of the overlay, bound when the page has one. *)
Definition overlay_click (w : World) : World :=
  match overlay (els w) with
  | None => w
  | Some _ => close w
  end.

(** The listener of the refresh request on the document. *)
Definition cart_refresh : Task Result := fetchCart.

(** ** Notions for the further properties *)

(** [obj[k]] on an object of string properties. *)
Definition obj_get (k : string) (o : list (string * string))
  : option string :=
  option_map snd (find (fun e => String.eqb (fst e) k) o).

(** The string holds the character. *)
Fixpoint has_char (c : ascii) (s : string) : bool :=
  match s with
  | EmptyString => false
  | String x r => Ascii.eqb x c || has_char c r
  end.

(** A printable ASCII character other than the double quote (34), the
    ampersand (38), the angle brackets (60, 62) and the backslash (92). *)
Definition plain_char (c : ascii) : bool :=
  let n := nat_of_ascii c in
  ((32 <=? n) && (n <=? 126)
   && negb (existsb (Nat.eqb n) [34; 38; 60; 62; 92]))%nat.

(** Plain text: markup carries it unchanged in an attribute value between
    double quotes and in the content of an element, and so does a selector
    in an attribute value between double quotes. *)
Fixpoint plain (s : string) : bool :=
  match s with
  | EmptyString => true
  | String c r => plain_char c && plain r
  end.

(** An integer that a JavaScript number holds exactly. *)
Definition safe_integer (z : Z) : bool := Z.abs z <? 2 ^ 53.

(** A line whose strings are plain text and whose quantity is a safe
    integer: the lines for which the slots of [renderItem] are what the
    browser reads out of the markup. *)
Definition plain_line (item : LineItem) : bool :=
  plain (key item) && plain (title item) && plain (product_title item)
  && plain (url item)
  && match variant_title item with Some t => plain t | None => true end
  && match image item with Some u => plain u | None => true end
  && safe_integer (quantity item).

(** The value of a field reads, with [parseInt], as a safe integer or as
    [NaN]. *)
Definition reads_safely (value : string) : bool :=
  match parseInt value with
  | NaN => true
  | Num n => safe_integer n
  end.

(** The key that a click on a stepper control puts into the selector of
    [handleQuantityChange] is plain. *)
Definition plain_click (c : Click) : bool :=
  match decrementBtn c, incrementBtn c with
  | Some k, _ => plain k
  | None, Some k => plain k
  | None, None => true
  end.

(** The [data-key] of the control that a click in the drawer acts on: the
    first of the three selectors of the listener that finds one. *)
Definition control_key (c : Click) : option string :=
  match decrementBtn c, incrementBtn c with
  | Some k, _ => Some k
  | None, Some k => Some k
  | None, None => removeBtn c
  end.

(** The markers of the open drawer agree with the flag: the attributes of
    the drawer, the class of the overlay, the attribute and the pinning of
    the body. *)
Definition markers_agree (w : World) : Prop :=
  match drawer (els w) with
  | None => True
  | Some d =>
      let o := isOpen (this w) in
      data_drawer_open d = Some (if o then "true" else "false")
      /\ aria_hidden d = Some (if o then "false" else "true")
      /\ overlay (els w) = option_map (fun _ => o) (overlay (els w))
      /\ body_drawer_open (body (doc w)) = (if o then Some "true" else None)
      /\ position (body (doc w)) = (if o then "fixed" else "")
  end.

(** The submit control of the form [n] is in the state [b]. *)
Definition button_is (n : nat) (b : SubmitBtn) (w : World) : Prop :=
  submit_button (doc w) n = Some b.

(** A call in progress keeps [I]: every world it leaves, at a suspension or
    at its end, satisfies [I], provided the world it is resumed on does. *)
Inductive Keeps {A : Type} (I : World -> Prop) : Step A -> Prop :=
| Keeps_finished c w : I w -> Keeps I (Finished c w)
| Keeps_fetch req w k :
    I w -> (forall o w', I w' -> Keeps I (k o w')) ->
    Keeps I (AwaitFetch req w k)
| Keeps_json w k :
    I w -> (forall w', I w' -> Keeps I (k w')) -> Keeps I (AwaitJson w k).

(** ** The event loop *)

(** A call suspended at an [await]: what it does once resumed. *)
Inductive Pending : Type :=
| awaiting_fetch {A : Type} (req : Request)
    (k : FetchOutcome (Payload req) -> World -> Step A)
| awaiting_json {A : Type} (k : World -> Step A).

(** The page between two turns of the event loop: the world and the calls
    that are suspended. *)
Record Page : Type := {
  now : World;
  suspended : list Pending
}.

(** A call that has run up to its end or to an [await], put back into the
    page beside the other suspended calls. *)
Definition settle {A : Type} (s : Step A) (others : list Pending) : Page :=
  match s with
  | Finished _ w => {| now := w; suspended := others |}
  | AwaitFetch req w k =>
      {| now := w; suspended := awaiting_fetch req k :: others |}
  | AwaitJson w k => {| now := w; suspended := awaiting_json k :: others |}
  end.

(** What can start a turn: a call of a public method, an event that a
    listener of [bindEvents] or [init] handles, or a change of the document
    by the user or by other scripts. *)
Inductive Entry : Type :=
| calls_fetchCart
| calls_addItem (variantId : option string) (quantity : Number)
    (properties : list (string * string))
| calls_updateItem (key : string) (quantity : Number)
| calls_removeItem (key : string)
| calls_open
| calls_close
| on_refresh
| on_submit (form : Form)
| on_drawer_click (c : Click)
| on_drawer_change (key value : string)
| on_trigger_click
| on_close_click
| on_overlay_click
| on_document_keydown (e : KeyboardEvent)
| on_drawer_keydown (e : KeyboardEvent)
| document_changes (f : Document -> Document).

Definition enter (e : Entry) (pg : Page) : Page :=
  let w := now pg in
  let others := suspended pg in
  let sync (f : World -> World) := {| now := f w; suspended := others |} in
  match e with
  | calls_fetchCart => settle (fetchCart w) others
  | calls_addItem v q p => settle (addItem v q p w) others
  | calls_updateItem k q => settle (updateItem k q w) others
  | calls_removeItem k => settle (removeItem k w) others
  | calls_open => sync open
  | calls_close => sync close
  | on_refresh => settle (cart_refresh w) others
  | on_submit form => settle (document_submit form w) others
  | on_drawer_click c => settle (drawer_click c w) others
  | on_drawer_change k v => settle (drawer_change k v w) others
  | on_trigger_click => sync trigger_click
  | on_close_click => sync close_click
  | on_overlay_click => sync overlay_click
  | on_document_keydown ev => sync (document_keydown ev)
  | on_drawer_keydown ev =>
      sync (fun w =>
              document_keydown (fst (drawer_keydown ev w))
                (snd (drawer_keydown ev w)))
  | document_changes f => sync (with_doc f)
  end.

(** One turn of the event loop: something enters, or a suspended call is
    resumed, with the answer to its request or with the body it waits
    for. *)
Inductive Turn : Page -> Page -> Prop :=
| turn_enter e pg : Turn pg (enter e pg)
| turn_answer pg l1 A req (k : _ -> _ -> Step A) l2 o :
    suspended pg = (l1 ++ awaiting_fetch req k :: l2)%list ->
    Turn pg (settle (k o (now pg)) (l1 ++ l2))
| turn_body pg l1 A (k : _ -> Step A) l2 :
    suspended pg = (l1 ++ awaiting_json k :: l2)%list ->
    Turn pg (settle (k (now pg)) (l1 ++ l2)).

(** The pages that the loop reaches from a world with nothing suspended. *)
Inductive Reachable (w0 : World) : Page -> Prop :=
| reach_start : Reachable w0 {| now := w0; suspended := [] |}
| reach_turn pg pg' : Reachable w0 pg -> Turn pg pg' -> Reachable w0 pg'.

(** The requests that change the cart on the server. *)
Definition mutating (r : Request) : bool :=
  match r with
  | GET_cart => false
  | POST_add _ _ _ => true
  | POST_change _ _ => true
  end.

(** The number of mutating requests that wait for their answer. *)
Fixpoint outstanding (l : list Pending) : nat :=
  match l with
  | [] => O
  | awaiting_fetch req _ :: r =>
      if mutating req then S (outstanding r) else outstanding r
  | awaiting_json _ :: r => outstanding r
  end.

(** A call that holds the request flag: suspended with the flag set, as
    long as it is resumed with the flag set, and finished with the flag
    cleared. *)
Inductive Holding {A : Type} : Step A -> Prop :=
| Holding_finished c w : isUpdating (this w) = false -> Holding (Finished c w)
| Holding_fetch req w k :
    isUpdating (this w) = true ->
    (forall o w', isUpdating (this w') = true -> Holding (k o w')) ->
    Holding (AwaitFetch req w k)
| Holding_json w k :
    isUpdating (this w) = true ->
    (forall w', isUpdating (this w') = true -> Holding (k w')) ->
    Holding (AwaitJson w k).

(** A call that leaves the request flag as it finds it, [b], and sends no
    mutating request. *)
Inductive Passive {A : Type} (b : bool) : Step A -> Prop :=
| Passive_finished c w : isUpdating (this w) = b -> Passive b (Finished c w)
| Passive_fetch req w k :
    mutating req = false ->
    isUpdating (this w) = b ->
    (forall o w', Passive (isUpdating (this w')) (k o w')) ->
    Passive b (AwaitFetch req w k)
| Passive_json w k :
    isUpdating (this w) = b ->
    (forall w', Passive (isUpdating (this w')) (k w')) ->
    Passive b (AwaitJson w k).

(** The role of a suspended call: the holder of the flag, or passive. *)
Definition plays (holder : bool) (p : Pending) : Prop :=
  match p with
  | awaiting_fetch req k =>
      if holder
      then forall o w', isUpdating (this w') = true -> Holding (k o w')
      else mutating req = false
           /\ forall o w', Passive (isUpdating (this w')) (k o w')
  | awaiting_json k =>
      if holder
      then forall w', isUpdating (this w') = true -> Holding (k w')
      else forall w', Passive (isUpdating (this w')) (k w')
  end.

(** The number of holders among the roles. *)
Definition holders (roles : list bool) : nat :=
  List.length (filter (fun b => b) roles).

(** The flag is set exactly when one suspended call holds it. *)
Definition one_holder (pg : Page) : Prop :=
  exists roles,
    Forall2 plays roles (suspended pg)
    /\ holders roles = if isUpdating (this (now pg)) then 1%nat else 0%nat.

(** ** Tactics *)

(** Every end of a call in progress satisfies the property: by cases on
    what each request is answered with. *)
Ltac ends_by finish :=
  repeat (cbn;
          match goal with
          | |- Ends _ (Finished _ _) => constructor; finish
          | |- Ends _ (AwaitFetch _ _ _) => constructor; intros [?|[?|?]] ?
          | |- Ends _ (AwaitJson _ _) => constructor; intros ?
          | |- context [match ?b with SyntaxError _ => _ | Value _ => _ end] =>
              is_var b; destruct b
          end).

Ltac ends := ends_by ltac:(reflexivity).

Ltac in_lockstep :=
  unfold lockstep; cbn; destruct (drawer (els _)); reflexivity.

(** A world taken apart into its fields. *)
Ltac break_world w :=
  destruct w as [[? ? ? ?] [[[? ? ? ?]|] ? ? ? ? ? ?]
                   [[? ? ? ? ?] ? ? ? ? ? ? ? ? ?]];
  cbn in *; subst.

(** Every world that a call in progress leaves satisfies the invariant:
    by cases on what each request is answered with, the worlds kept as
    compositions of the controller's methods. *)
Ltac keeps_by finish :=
  repeat (cbn -[open close renderCart showError setLoading set_isUpdating
                dispatchEvent console_error set_submit_button];
          match goal with
          | |- Keeps ?I (ret ?a ?w) => change (Keeps I (Finished (Normal a) w))
          | |- Keeps ?I (throw ?e ?w) => change (Keeps I (Finished (Throw e) w))
          | |- Keeps _ (Finished _ _) => constructor; finish
          | |- Keeps _ (AwaitFetch _ _ _) =>
              constructor; [finish | intros [?|[?|?]] ? ?]
          | |- Keeps _ (AwaitJson _ _) => constructor; [finish | intros ? ?]
          | |- context [match ?b with SyntaxError _ => _ | Value _ => _ end] =>
              is_var b; destruct b
          end).

(** As [ends_by], for properties of the completion. *)
Ltac finishes_by finish :=
  repeat (cbn;
          match goal with
          | |- Ends ?P (ret ?a ?w) => change (Ends P (Finished (Normal a) w))
          | |- Ends ?P (throw ?e ?w) => change (Ends P (Finished (Throw e) w))
          | |- Ends _ (Finished _ _) => constructor; finish
          | |- Ends _ (AwaitFetch _ _ _) => constructor; intros [?|[?|?]] ?
          | |- Ends _ (AwaitJson _ _) => constructor; intros ?
          | |- context [match ?b with SyntaxError _ => _ | Value _ => _ end] =>
              is_var b; destruct b
          end).

Ltac normal_end := cbv beta; eexists; reflexivity.

Ltac same_markers :=
  let w := fresh "w" in
  let H := fresh "H" in
  intros w H; unfold markers_agree in *; cbn in *;
  destruct (drawer (els w)); cbn in *; auto.

Ltac same_lockstep :=
  let w := fresh "w" in
  let H := fresh "H" in
  intros w H; unfold lockstep in *; cbn in *;
  destruct (drawer (els w)); cbn in *; auto.

(** The flag through the methods of a world. *)
Ltac flag_kept :=
  repeat match goal with
         | |- context [match submit_button ?d ?n with _ => _ end] =>
             destruct (submit_button d n)
         end;
  autorewrite with flag; (assumption || reflexivity).

Ltac roles_by finish :=
  repeat (cbv delta [ret throw exec bind try_catch try_finally fetch json];
          cbn -[open close renderCart showError setLoading set_isUpdating
                dispatchEvent console_error set_submit_button];
          match goal with
          | |- Holding (Finished _ _) => constructor; finish
          | |- Holding (AwaitFetch _ _ _) =>
              constructor; [finish | intros [?|[?|?]] ? ?]
          | |- Holding (AwaitJson _ _) => constructor; [finish | intros ? ?]
          | |- Passive _ (Finished _ _) => constructor; finish
          | |- Passive _ (AwaitFetch _ _ _) =>
              constructor; [reflexivity | finish | intros [?|[?|?]] ?]
          | |- Passive _ (AwaitJson _ _) => constructor; [finish | intros ?]
          | |- context [match ?b with SyntaxError _ => _ | Value _ => _ end] =>
              is_var b; destruct b
          end).

Create Rewrite HintDb flag.
Create HintDb button.
Create HintDb markers.
Create HintDb lockstep.

(** * Properties *)

(** ** Strings and digits *)

Lemma append_assoc (a b c : string) : ((a ++ b) ++ c = a ++ (b ++ c))%string.
Proof. induction a as [|x a IH]; simpl; [reflexivity | now rewrite IH]. Qed.

Lemma length_append (a b : string) :
  String.length (a ++ b) = (String.length a + String.length b)%nat.
Proof. induction a as [|x a IH]; simpl; [reflexivity | now rewrite IH]. Qed.

Lemma take_append (a b : string) : Str.take (String.length a) (a ++ b) = a.
Proof. induction a as [|x a IH]; simpl; [now destruct b | now rewrite IH]. Qed.

Lemma drop_append (a b : string) : Str.drop (String.length a) (a ++ b) = b.
Proof. induction a as [|x a IH]; simpl; [reflexivity | exact IH]. Qed.

Lemma digits_from_acc (fuel : nat) :
  forall n acc, digits_from fuel n acc = (digits_from fuel n "" ++ acc)%string.
Proof.
  induction fuel as [|fuel IH]; intros n acc; simpl; [reflexivity|].
  destruct (n / 10 =? 0); [reflexivity|].
  rewrite (IH _ (String _ acc)), (IH _ (String _ "")).
  now rewrite append_assoc.
Qed.

Lemma log2_tenth (n : Z) : 10 <= n -> Z.log2 (n / 10) < Z.log2 n.
Proof.
  intros Hn.
  assert (Hm : 1 <= n / 10) by (apply Z.div_le_lower_bound; lia).
  assert (H2 : 2 * (n / 10) <= n).
  { pose proof (Z.mul_div_le n 10 ltac:(lia)). lia. }
  pose proof (Z.log2_double (n / 10) ltac:(lia)) as Hd.
  pose proof (Z.log2_le_mono _ _ H2). lia.
Qed.

Lemma digits_from_fuel (f1 : nat) :
  forall f2 n acc,
    0 <= n -> Z.log2 n < Z.of_nat f1 -> Z.log2 n < Z.of_nat f2 ->
    digits_from f1 n acc = digits_from f2 n acc.
Proof.
  induction f1 as [|f1 IH]; intros f2 n acc Hn H1 H2.
  - pose proof (Z.log2_nonneg n). lia.
  - destruct f2 as [|f2]; [pose proof (Z.log2_nonneg n); lia|].
    simpl. destruct (n / 10 =? 0) eqn:E; [reflexivity|].
    apply Z.eqb_neq in E.
    assert (10 <= n).
    { destruct (Z_lt_le_dec n 10) as [Hlt|]; [|assumption].
      exfalso. apply E. apply Z.div_small. lia. }
    pose proof (log2_tenth n ltac:(assumption)).
    apply IH; [apply Z.div_pos; lia | lia | lia].
Qed.

Lemma decimal_small (n : Z) :
  0 <= n < 10 -> decimal n = String (digit_char n) "".
Proof.
  intros Hn. unfold decimal. simpl.
  rewrite (Z.div_small n 10), (Z.mod_small n 10) by lia. reflexivity.
Qed.

Lemma decimal_step (n : Z) :
  10 <= n ->
  decimal n = (decimal (n / 10) ++ String (digit_char (n mod 10)) "")%string.
Proof.
  intros Hn. unfold decimal at 1. simpl.
  destruct (n / 10 =? 0) eqn:E.
  - apply Z.eqb_eq in E.
    assert (1 <= n / 10) by (apply Z.div_le_lower_bound; lia). lia.
  - rewrite digits_from_acc. f_equal. unfold decimal.
    pose proof (log2_tenth n Hn). pose proof (Z.log2_nonneg (n / 10)).
    apply digits_from_fuel; [apply Z.div_pos; lia | lia | lia].
Qed.

Lemma decimal_length (n : Z) : 0 <= n -> (1 <= String.length (decimal n))%nat.
Proof.
  intros Hn. destruct (Z_lt_le_dec n 10).
  - rewrite decimal_small by lia. simpl. lia.
  - rewrite decimal_step, length_append by lia. simpl. lia.
Qed.

(** The digits of [n] are those of its hundreds followed by two more. *)
Lemma decimal_hundreds (n : Z) :
  100 <= n ->
  decimal n =
    (decimal (n / 100)
     ++ String (digit_char (n / 10 mod 10)) (String (digit_char (n mod 10)) ""))%string.
Proof.
  intros Hn. rewrite decimal_step by lia.
  assert (10 <= n / 10) by (apply Z.div_le_lower_bound; lia).
  rewrite (decimal_step (n / 10)) by lia.
  rewrite Z.div_div by lia. change (10 * 10) with 100.
  now rewrite append_assoc.
Qed.

Lemma cents_rounding (c : Z) :
  Qfloor (Qabs (c # 100) * inject_Z (10 ^ Z.of_nat 2) + (1 # 2)) = Z.abs c.
Proof.
  change (10 ^ Z.of_nat 2) with 100.
  unfold Qabs, Qmult, Qplus, Qfloor, inject_Z. cbn [Qnum Qden].
  symmetry. apply (Z.div_unique _ _ _ 100); lia.
Qed.

(** The fixed-point digits of [n] hundredths. *)
Lemma hundredths_digits (n : Z) :
  0 <= n ->
  let m := decimal n in
  let k := String.length m in
  let m' := if (k <=? 2)%nat then (Str.repeat "0" (2 + 1 - k) ++ m)%string else m in
  let k' := String.length m' in
  (Str.take (k' - 2) m' ++ "." ++ Str.drop (k' - 2) m')%string =
  (decimal (n / 100) ++ "."
   ++ String (digit_char (n / 10 mod 10)) (String (digit_char (n mod 10)) ""))%string.
Proof.
  intros Hn. cbv zeta.
  destruct (Z_lt_le_dec n 10) as [H10|H10].
  - rewrite (decimal_small n) by lia. simpl.
    rewrite (Z.div_small n 100), (Z.div_small n 10), (Z.mod_small n 10) by lia.
    reflexivity.
  - destruct (Z_lt_le_dec n 100) as [H100|H100].
    + rewrite (decimal_step n) by lia.
      assert (1 <= n / 10) by (apply Z.div_le_lower_bound; lia).
      assert (n / 10 < 10) by (apply Z.div_lt_upper_bound; lia).
      rewrite (decimal_small (n / 10)) by lia. simpl.
      rewrite (Z.div_small n 100) by lia.
      rewrite (Z.mod_small (n / 10) 10) by lia. reflexivity.
    + rewrite (decimal_hundreds n) by lia.
      assert (0 <= n / 100) by (apply Z.div_pos; lia).
      pose proof (decimal_length (n / 100) ltac:(assumption)) as Hlen.
      set (h := decimal (n / 100)) in *.
      rewrite length_append. simpl String.length.
      replace (String.length h + 2 <=? 2)%nat with false
        by (symmetry; apply Nat.leb_gt; lia).
      rewrite length_append. simpl String.length.
      replace (String.length h + 2 - 2)%nat with (String.length h) by lia.
      now rewrite take_append, drop_append.
Qed.

(** C8. [formatMoney] divides the integer amount of minor units by 100 and
    writes it with a dollar sign, a minus sign below zero, the whole units
    and exactly two decimal digits, for an amount below [2^52] in
    magnitude, where the quotient that JavaScript computes in floating
    point rounds to the same hundredth as the exact one; 1050 reads
    "$10.50" and 0 reads "$0.00". *)
Theorem formatMoney_two_decimals :
  (forall cents : Z,
     Z.abs cents < 2 ^ 52 ->
     formatMoney cents =
       ("$" ++ (if (cents <? 0)%Z then "-" else "")
        ++ decimal (Z.abs cents / 100) ++ "."
        ++ String (digit_char (Z.abs cents / 10 mod 10))
             (String (digit_char (Z.abs cents mod 10)) ""))%string)
  /\ formatMoney 1050 = "$10.50"
  /\ formatMoney 0 = "$0.00".
Proof.
  split; [|split; reflexivity].
  intros cents _. unfold formatMoney, toFixed.
  rewrite cents_rounding. f_equal.
  pose proof (hundredths_digits (Z.abs cents) (Z.abs_nonneg cents)) as H.
  cbv zeta in H. rewrite H. clear H.
  f_equal.
  destruct (Qlt_le_dec (cents # 100) 0) as [Hlt|Hle];
    unfold Qlt, Qle in *; cbn [Qnum Qden] in *.
  - replace (cents <? 0) with true by (symmetry; apply Z.ltb_lt; lia).
    reflexivity.
  - replace (cents <? 0) with false by (symmetry; apply Z.ltb_ge; lia).
    reflexivity.
Qed.

Lemma formatMoney_two_decimals_witness :
  formatMoney 123456 = "$1234.56" /\ formatMoney (-5) = "$-0.05".
Proof.
  split.
  - exact (proj1 formatMoney_two_decimals 123456 ltac:(reflexivity)).
  - exact (proj1 formatMoney_two_decimals (-5) ltac:(reflexivity)).
Defined.

(** ** The request guard *)

Lemma addItem_guarded variantId quantity properties :
  guarded (addItem variantId quantity properties)
    (POST_add variantId quantity properties).
Proof.
  split; intros w H; unfold addItem; rewrite H; [reflexivity|].
  cbn. eexists _, _. split; [reflexivity|]. split; [reflexivity|].
  intros [m|[b|b]] w2; ends.
Qed.

Lemma updateItem_guarded key quantity :
  guarded (updateItem key quantity) (POST_change key quantity).
Proof.
  split; intros w H; unfold updateItem; rewrite H; [reflexivity|].
  cbn. eexists _, _. split; [reflexivity|]. split; [reflexivity|].
  intros [m|[b|b]] w2; ends.
Qed.

(** The scenario of the guard: while [addItem] waits for its answer, a
    call of [updateItem] finishes at once on the world as it is. *)
Lemma second_call_is_dropped (w : World) variantId quantity properties
    key quantity' :
  isUpdating (this w) = false ->
  exists w1 k,
    addItem variantId quantity properties w
    = AwaitFetch (POST_add variantId quantity properties) w1 k
    /\ updateItem key quantity' w1 = Finished (Normal RUndefined) w1.
Proof.
  intros Hu.
  destruct (proj2 (addItem_guarded variantId quantity properties) w Hu)
    as [w1 [k [E [Hf _]]]].
  exists w1, k. split; [exact E|].
  exact (proj1 (updateItem_guarded key quantity') w1 Hf).
Qed.

(** The loading indicator follows the flag: every mutating call that
    passes the guard ends with the two in lockstep. *)
Lemma lockstep_restored (w : World) :
  isUpdating (this w) = false ->
  (forall variantId quantity properties,
     Ends (fun _ w' => lockstep w')
       (addItem variantId quantity properties w))
  /\ (forall key quantity,
        Ends (fun _ w' => lockstep w') (updateItem key quantity w)).
Proof.
  intros Hu. split; intros.
  - unfold addItem. rewrite Hu. ends_by ltac:(in_lockstep).
  - unfold updateItem. rewrite Hu. ends_by ltac:(in_lockstep).
Qed.

(** C1. Each mutating operation is guarded by the request flag: called
    while the flag is set it returns at once, with no request sent and the
    controller and the document unchanged; called otherwise it sets the flag
    before its request and the flag is cleared when it completes, whether
    it succeeds or fails. *)
Theorem request_guard :
  (forall variantId quantity properties,
     guarded (addItem variantId quantity properties)
       (POST_add variantId quantity properties))
  /\ (forall key quantity,
        guarded (updateItem key quantity) (POST_change key quantity))
  /\ (forall key, guarded (removeItem key) (POST_change key (Num 0))).
Proof.
  split; [exact addItem_guarded|].
  split; [exact updateItem_guarded|].
  intros key. exact (updateItem_guarded key (Num 0)).
Qed.

Lemma request_guard_witness :
  isUpdating (this busy_page) = true
  /\ updateItem "40912345:a1" (Num 3) busy_page
     = Finished (Normal RUndefined) busy_page
  /\ run (serving sample_cart) (updateItem "40912345:a1" (Num 3) busy_page)
     = (Normal RUndefined, busy_page, []).
Proof.
  assert (H : isUpdating (this busy_page) = true) by reflexivity.
  pose proof (proj1 (proj1 (proj2 request_guard) "40912345:a1" (Num 3))
                busy_page H) as E.
  split; [exact H|]. split; [exact E|]. rewrite E. reflexivity.
Defined.

(** ** Removal *)

(** C9. [removeItem(k)] is [updateItem(k, 0)]: the same call in progress on
    every world, hence the same requests, the same changes of the world,
    the same notifications and the same result against every boundary. *)
Theorem removeItem_is_updateItem_zero :
  forall key : string,
    (forall w, removeItem key w = updateItem key (Num 0) w)
    /\ (forall net w,
          run net (removeItem key w) = run net (updateItem key (Num 0) w)).
Proof. intros key. split; reflexivity. Qed.

(** ** The drawer state machine *)

Lemma open_spec (w : World) (d : DrawerEl) :
  drawer (els w) = Some d ->
  isOpen (this (open w)) = true
  /\ exists d', drawer (els (open w)) = Some d'
                /\ data_drawer_open d' = Some "true".
Proof.
  intros H. unfold open. rewrite H. cbn. rewrite H. cbn.
  split; [reflexivity|]. eexists. split; reflexivity.
Qed.

Lemma close_spec (w : World) (d : DrawerEl) :
  drawer (els w) = Some d ->
  isOpen (this (close w)) = false
  /\ exists d', drawer (els (close w)) = Some d'
                /\ data_drawer_open d' = Some "false".
Proof.
  intros H. unfold close. rewrite H.
  match goal with
  | |- context [match ?t with Some e => focus e ?v | None => _ end] =>
      destruct t
  end; cbn; rewrite H; cbn; (split; [reflexivity|]);
    eexists; split; reflexivity.
Qed.

Lemma perform_spec (w : World) (d : DrawerEl) (c : Call) :
  drawer (els w) = Some d ->
  isOpen (this (perform w c)) = intent c
  /\ exists d', drawer (els (perform w c)) = Some d'
                /\ data_drawer_open d'
                   = Some (if intent c then "true" else "false").
Proof.
  intros H. destruct c; cbn [perform intent].
  - exact (open_spec w d H).
  - exact (close_spec w d H).
Qed.

Lemma perform_all_drawer (calls : list Call) :
  forall w d, drawer (els w) = Some d ->
              exists d', drawer (els (fold_left perform calls w)) = Some d'.
Proof.
  induction calls as [|c calls IH]; intros w d H; cbn.
  - now exists d.
  - destruct (perform_spec w d c H) as [_ [d' [H' _]]]. now apply (IH _ d').
Qed.

(** C7. On a controller with a drawer, after any sequence of [open()] and
    [close()] calls the drawer is open exactly when the last call was
    [open()], and the marker on the drawer says so; two calls of [open()]
    leave it open, two calls of [close()] leave it closed; [toggle()] is
    [open()] on a closed drawer and [close()] on an open one. *)
Theorem drawer_follows_last_call :
  forall (w : World) (d : DrawerEl),
    drawer (els w) = Some d ->
    (forall (calls : list Call) (c : Call),
       let w' := fold_left perform (calls ++ [c]) w in
       isOpen (this w') = intent c
       /\ option_map data_drawer_open (drawer (els w'))
          = Some (Some (if intent c then "true" else "false")))
    /\ isOpen (this (open (open w))) = true
    /\ isOpen (this (close (close w))) = false
    /\ (isOpen (this w) = false ->
        toggle w = open w /\ isOpen (this (toggle w)) = true)
    /\ (isOpen (this w) = true ->
        toggle w = close w /\ isOpen (this (toggle w)) = false).
Proof.
  intros w d H. repeat split.
  - rewrite fold_left_app. cbn [fold_left].
    destruct (perform_all_drawer calls w d H) as [d1 H1].
    exact (proj1 (perform_spec _ d1 c H1)).
  - rewrite fold_left_app. cbn [fold_left].
    destruct (perform_all_drawer calls w d H) as [d1 H1].
    destruct (perform_spec _ d1 c H1) as [_ [d2 [H2 H3]]].
    rewrite H2. cbn. now rewrite H3.
  - destruct (open_spec w d H) as [_ [d1 [H1 _]]].
    exact (proj1 (open_spec _ d1 H1)).
  - destruct (close_spec w d H) as [_ [d1 [H1 _]]].
    exact (proj1 (close_spec _ d1 H1)).
  - unfold toggle. now rewrite H0.
  - unfold toggle. rewrite H0. exact (proj1 (open_spec w d H)).
  - unfold toggle. now rewrite H0.
  - unfold toggle. rewrite H0. exact (proj1 (close_spec w d H)).
Qed.

Lemma drawer_follows_last_call_witness :
  drawer (els sample_page) <> None
  /\ isOpen (this (fold_left perform
                     [call_open; call_close; call_close; call_open]
                     sample_page)) = true
  /\ isOpen (this (fold_left perform [call_open; call_open; call_close]
                     sample_page)) = false.
Proof.
  pose proof (drawer_follows_last_call sample_page _ eq_refl) as [H _].
  split; [discriminate|]. split.
  - exact (proj1 (H [call_open; call_close; call_close] call_open)).
  - exact (proj1 (H [call_open; call_open] call_close)).
Defined.

(** ** The focus trap *)

Lemma last_is_nth (l : list Element) (d : Element) :
  List.last l d = nth (List.length l - 1) l d.
Proof.
  induction l as [|x l IH]; [reflexivity|].
  destruct l as [|y l]; [reflexivity|].
  change (List.last (x :: y :: l) d) with (List.last (y :: l) d).
  rewrite IH. cbn [List.length].
  replace (S (S (List.length l)) - 1)%nat with (S (List.length l)) by lia.
  replace (S (List.length l) - 1)%nat with (List.length l) by lia.
  reflexivity.
Qed.

Lemma last_cons (x : Element) (l : list Element) :
  List.last l x = List.last (x :: l) x.
Proof. destruct l; reflexivity. Qed.

Lemma successor_nth (l : list Element) (d : Element) :
  NoDup l ->
  forall i, (S i < List.length l)%nat ->
            successor (nth i l d) l = Some (nth (S i) l d).
Proof.
  induction l as [|x l IH]; intros Hnd i Hi; [cbn in Hi; lia|].
  inversion Hnd as [|? ? Hx Hl]; subst.
  destruct i as [|i].
  - cbn. rewrite Nat.eqb_refl. destruct l; [cbn in Hi; lia | reflexivity].
  - cbn [nth successor].
    destruct (Nat.eqb_spec x (nth i l d)) as [E|_].
    + exfalso. apply Hx. rewrite E. apply nth_In. cbn in Hi. lia.
    + cbn in Hi. rewrite IH by (assumption || lia).
      destruct l; [cbn in Hi; lia | reflexivity].
Qed.

Lemma drawer_keydown_tab (e : KeyboardEvent) (w : World) (d : DrawerEl) :
  drawer (els w) = Some d ->
  isOpen (this w) = true ->
  key_name e = "Tab" ->
  drawer_keydown e w = handleTabKey e w.
Proof.
  intros Hd Ho Hk. unfold drawer_keydown. rewrite Hd, Ho, Hk. reflexivity.
Qed.

Lemma press_tab_step (outside : Element) (w : World) (d : DrawerEl)
    (first : Element) (rest : list Element) (i : nat) :
  drawer (els w) = Some d ->
  isOpen (this w) = true ->
  focusable (doc w) = first :: rest ->
  NoDup (first :: rest) ->
  (i < List.length (first :: rest))%nat ->
  activeElement (doc w) = nth i (first :: rest) first ->
  refocused w (press_tab outside w)
  /\ activeElement (doc (press_tab outside w))
     = if (S i =? List.length (first :: rest))%nat then first
       else nth (S i) (first :: rest) first.
Proof.
  intros Hd Ho Hf Hnd Hi Ha.
  unfold press_tab.
  rewrite (drawer_keydown_tab
             {| key_name := "Tab"; shiftKey := false;
                defaultPrevented := false |} w d Hd Ho eq_refl).
  unfold handleTabKey, getFocusableElements.
  rewrite Hd, Hf. cbn [shiftKey andb negb].
  rewrite last_cons, last_is_nth, Ha.
  destruct (Nat.eqb_spec (S i) (List.length (first :: rest))) as [E|E].
  - replace (List.length (first :: rest) - 1)%nat with i by lia.
    rewrite Nat.eqb_refl. cbn. repeat split; reflexivity.
  - destruct (Nat.eqb_spec (nth i (first :: rest) first)
                (nth (List.length (first :: rest) - 1) (first :: rest) first))
      as [E'|_].
    + exfalso. apply E.
      apply (proj1 (NoDup_nth (first :: rest) first) Hnd) in E'; lia.
    + cbn [defaultPrevented]. unfold default_tab. rewrite Hf, Ha.
      rewrite successor_nth by (assumption || lia).
      cbn. repeat split; reflexivity.
Qed.

Lemma press_tab_iter (outside : Element) (w : World) (d : DrawerEl)
    (first : Element) (rest : list Element) :
  drawer (els w) = Some d ->
  isOpen (this w) = true ->
  focusable (doc w) = first :: rest ->
  NoDup (first :: rest) ->
  activeElement (doc w) = first ->
  forall k, (k < List.length (first :: rest))%nat ->
    refocused w (Nat.iter k (press_tab outside) w)
    /\ activeElement (doc (Nat.iter k (press_tab outside) w))
       = nth k (first :: rest) first.
Proof.
  intros Hd Ho Hf Hnd Ha k. induction k as [|k IH]; intros Hk.
  - cbn. repeat split; assumption.
  - destruct (IH ltac:(lia)) as [[Ht [He Hfo]] Hact].
    set (wk := Nat.iter k (press_tab outside) w) in *.
    change (Nat.iter (S k) (press_tab outside) w)
      with (press_tab outside wk).
    destruct (press_tab_step outside wk d first rest k) as [[Ht' [He' Hf']] Ha'];
      try assumption; try congruence; try lia.
    split.
    + repeat split; congruence.
    + rewrite Ha'.
      destruct (Nat.eqb_spec (S k) (List.length (first :: rest))); [lia|].
      reflexivity.
Qed.

(** C6. While the drawer is open, for a Tab key event that reaches the
    controller: without focusable elements in the drawer the key is
    suppressed; Tab on the last focusable element is suppressed and moves
    the focus to the first; Shift+Tab on the first is suppressed and moves
    the focus to the last; and with N distinct focusable elements, N presses
    of Tab from the first bring the focus back to the first, each press
    being the listener followed, unless suppressed, by the browser's move to
    the next element. *)
Theorem focus_trap :
  forall (w : World) (d : DrawerEl) (e : KeyboardEvent),
    drawer (els w) = Some d ->
    isOpen (this w) = true ->
    key_name e = "Tab" ->
    (focusable (doc w) = [] -> drawer_keydown e w = (preventDefault e, w))
    /\ (forall first rest,
          focusable (doc w) = first :: rest ->
          (shiftKey e = false ->
           activeElement (doc w) = List.last rest first ->
           defaultPrevented (fst (drawer_keydown e w)) = true
           /\ activeElement (doc (snd (drawer_keydown e w))) = first)
          /\ (shiftKey e = true ->
              activeElement (doc w) = first ->
              defaultPrevented (fst (drawer_keydown e w)) = true
              /\ activeElement (doc (snd (drawer_keydown e w)))
                 = List.last rest first)
          /\ (forall outside,
                NoDup (first :: rest) ->
                activeElement (doc w) = first ->
                activeElement
                  (doc (Nat.iter (List.length (first :: rest))
                          (press_tab outside) w)) = first)).
Proof.
  intros w d e Hd Ho Hk.
  rewrite (drawer_keydown_tab e w d Hd Ho Hk).
  unfold handleTabKey, getFocusableElements. rewrite Hd.
  split.
  - intros Hf. now rewrite Hf.
  - intros first rest Hf. rewrite Hf. split; [|split].
    + intros Hs Ha. rewrite Hs, Ha, Nat.eqb_refl. cbn. split; reflexivity.
    + intros Hs Ha. rewrite Hs, Ha, Nat.eqb_refl. cbn. split; reflexivity.
    + intros outside Hnd Ha.
      destruct (press_tab_iter outside w d first rest Hd Ho Hf Hnd Ha
                  (List.length rest) ltac:(cbn; lia)) as [[Ht [He Hfo]] Hact].
      set (wk := Nat.iter (List.length rest) (press_tab outside) w) in *.
      change (Nat.iter (List.length (first :: rest)) (press_tab outside) w)
        with (press_tab outside wk).
      destruct (press_tab_step outside wk d first rest (List.length rest))
        as [_ Ha']; try assumption; try congruence; try (cbn; lia).
      rewrite Ha'. cbn [List.length]. now rewrite Nat.eqb_refl.
Qed.

Lemma focus_trap_witness :
  activeElement (doc open_page) = 2%nat
  /\ activeElement (doc (Nat.iter 3 (press_tab 0%nat) open_page)) = 2%nat
  /\ activeElement
       (doc (snd (drawer_keydown
                    {| key_name := "Tab"; shiftKey := true;
                       defaultPrevented := false |} open_page))) = 4%nat.
Proof.
  pose proof (focus_trap open_page
                {| drawer_node := 1%nat; data_drawer_open := Some "true";
                   aria_hidden := Some "false"; loading := false |}
                {| key_name := "Tab"; shiftKey := true;
                   defaultPrevented := false |}
                eq_refl eq_refl eq_refl) as [_ H].
  destruct (H 2%nat [3; 4]%nat eq_refl) as [_ [Hback Hcycle]].
  split; [reflexivity|]. split.
  - apply (Hcycle 0%nat); [|reflexivity].
    repeat constructor; cbn; intuition discriminate.
  - exact (proj2 (Hback eq_refl eq_refl)).
Defined.

(** ** Failures at the HTTP boundary *)

Lemma fetchCart_failing (net : Network) (w : World) :
  failing (net GET_cart) = true ->
  run net (fetchCart w)
  = (Normal RNull,
     console_error "Cart fetch error:"
       (request_error_message "Failed to fetch cart" (net GET_cart)) w,
     [GET_cart]).
Proof.
  intros H. unfold fetchCart. cbn.
  destruct (net GET_cart) as [m|[b|b]]; cbn in *;
    [reflexivity | discriminate | reflexivity].
Qed.

Lemma addItem_failing (net : Network) (w : World) variantId quantity
    properties :
  isUpdating (this w) = false ->
  lockstep w ->
  failing (net (POST_add variantId quantity properties)) = true ->
  run net (addItem variantId quantity properties w)
  = (Normal RNull,
     let message :=
       add_error_message (net (POST_add variantId quantity properties)) in
     w |> console_error "Add to cart error:" message |> showError message,
     [POST_add variantId quantity properties]).
Proof.
  intros Hu Hl H. unfold addItem. rewrite Hu. cbn.
  destruct (net (POST_add variantId quantity properties)) as [m|[b|[m|e]]];
    cbn in *; try discriminate.
  all: unfold lockstep in Hl; break_world w; reflexivity.
Qed.

Lemma updateItem_failing (net : Network) (w : World) key quantity :
  isUpdating (this w) = false ->
  lockstep w ->
  failing (net (POST_change key quantity)) = true ->
  run net (updateItem key quantity w)
  = (Normal RNull,
     w |> console_error "Update cart error:"
            (request_error_message "Failed to update item"
               (net (POST_change key quantity)))
       |> showError "Failed to update cart",
     [POST_change key quantity]).
Proof.
  intros Hu Hl H. unfold updateItem. rewrite Hu. cbn.
  destruct (net (POST_change key quantity)) as [m|[b|b]];
    cbn in *; try discriminate.
  all: unfold lockstep in Hl; break_world w; reflexivity.
Qed.

(** C2, as the code has it. Called with the request flag clear and the
    loading indicator in lockstep with it, [addItem] whose add request
    fails, [updateItem] and [removeItem] whose change request fails resolve
    with [null] after one request, and leave the world as it was but for
    the error logged to the console and the toast appended to the body.
    A failing [fetchCart] resolves with [null] and logs the error: it
    shows no toast. *)
Theorem failures_stay_local :
  forall (net : Network) (w : World),
    (failing (net GET_cart) = true ->
     run net (fetchCart w)
     = (Normal RNull,
        console_error "Cart fetch error:"
          (request_error_message "Failed to fetch cart" (net GET_cart)) w,
        [GET_cart]))
    /\ (isUpdating (this w) = false ->
        lockstep w ->
        (forall variantId quantity properties,
           failing (net (POST_add variantId quantity properties)) = true ->
           run net (addItem variantId quantity properties w)
           = (Normal RNull,
              let message :=
                add_error_message
                  (net (POST_add variantId quantity properties)) in
              w |> console_error "Add to cart error:" message
                |> showError message,
              [POST_add variantId quantity properties]))
        /\ (forall key quantity,
              failing (net (POST_change key quantity)) = true ->
              run net (updateItem key quantity w)
              = (Normal RNull,
                 w |> console_error "Update cart error:"
                        (request_error_message "Failed to update item"
                           (net (POST_change key quantity)))
                   |> showError "Failed to update cart",
                 [POST_change key quantity]))
        /\ (forall key,
              failing (net (POST_change key (Num 0))) = true ->
              run net (removeItem key w)
              = (Normal RNull,
                 w |> console_error "Update cart error:"
                        (request_error_message "Failed to update item"
                           (net (POST_change key (Num 0))))
                   |> showError "Failed to update cart",
                 [POST_change key (Num 0)]))).
Proof.
  intros net w. split; [apply fetchCart_failing|].
  intros Hu Hl. split; [|split].
  - intros. now apply addItem_failing.
  - intros. now apply updateItem_failing.
  - intros. unfold removeItem. now apply updateItem_failing.
Qed.

Lemma failures_stay_local_witness :
  toasts (body (doc (snd (fst (run offline
                                 (updateItem "40912345:a1" (Num 3)
                                    sample_page))))))
  = [error_toast "Failed to update cart"]
  /\ isOpen (this (snd (fst (run offline
                               (addItem (Some "40912345") (Num 2) []
                                  sample_page))))) = false.
Proof.
  destruct (failures_stay_local offline sample_page) as [_ H].
  destruct (H eq_refl eq_refl) as [Hadd [Hupd _]].
  rewrite (Hupd "40912345:a1" (Num 3) eq_refl).
  rewrite (Hadd (Some "40912345") (Num 2) [] eq_refl).
  split; reflexivity.
Defined.

(** C2 fails as stated: against a boundary that rejects the request,
    [fetchCart] resolves with [null] and the body holds no toast. *)
Lemma fetchCart_failure_shows_no_toast :
  failing (offline GET_cart) = true
  /\ fst (fst (run offline (fetchCart sample_page))) = Normal RNull
  /\ toasts (body (doc (snd (fst (run offline (fetchCart sample_page))))))
     = [].
Proof. repeat split; reflexivity. Qed.

(** ** Adding an item *)

(** C3. When [addItem] is called with the request flag clear, the add
    request succeeds and the cart request returns a cart: [addItem] sends
    the add request and then the cart request, renders the panel from that
    cart (every badge reads [item_count] and is hidden when it is 0, the
    subtotal reads the formatted [total_price], the items list holds one
    block per line), opens the drawer of a page that has one, dispatches
    the item-added notification with the variant id, the quantity and the
    cart, and resolves with the cart. *)
Theorem addItem_success :
  forall (net : Network) (w : World) variantId quantity
         properties (b : Parsed LineItem) (cart : Cart),
    isUpdating (this w) = false ->
    net (POST_add variantId quantity properties) = Responded (Ok b) ->
    net GET_cart = Responded (Ok (Value cart)) ->
    let '(c, w', sent) :=
      run net (addItem variantId quantity properties w) in
    c = Normal (RCart cart)
    /\ sent = [POST_add variantId quantity properties; GET_cart]
    /\ countElements (els w')
       = map (fun _ =>
                {| badge_textContent := string_of_Z (item_count cart);
                   badge_display :=
                     if 0 <? item_count cart then "" else "none" |})
           (countElements (els w))
    /\ subtotalElement (els w')
       = option_map (fun _ => formatMoney (total_price cart))
           (subtotalElement (els w))
    /\ itemsContainer (els w')
       = option_map (fun _ => map renderItem (items cart))
           (itemsContainer (els w))
    /\ (forall d : DrawerEl,
          drawer (els w) = Some d ->
          isOpen (this w') = true
          /\ option_map data_drawer_open (drawer (els w'))
             = Some (Some "true"))
    /\ dispatched (doc w')
       = (dispatched (doc w)
          ++ [cart_item_added variantId quantity (RCart cart)])%list
    /\ isUpdating (this w') = false.
Proof.
  intros net w variantId quantity properties b cart Hu Hadd Hget.
  unfold addItem. rewrite Hu. cbn. rewrite Hadd. cbn. rewrite Hget. cbn.
  break_world w; repeat split; try reflexivity; discriminate.
Qed.

Lemma addItem_success_witness :
  let '(c, w', sent) :=
    run (serving {| item_count := 2; total_price := 4000; items := [] |})
      (addItem (Some "40912345") (Num 2) [] sample_page) in
  isOpen (this w') = true
  /\ map badge_textContent (countElements (els w')) = ["2"; "2"]
  /\ subtotalElement (els w') = Some "$40.00"
  /\ dispatched (doc w')
     = [cart_item_added (Some "40912345") (Num 2)
          (RCart {| item_count := 2; total_price := 4000; items := [] |})].
Proof.
  pose proof (addItem_success
                (serving {| item_count := 2; total_price := 4000;
                            items := [] |})
                sample_page (Some "40912345") (Num 2) [] _ _
                eq_refl eq_refl eq_refl) as H.
  destruct (run _ _) as [[c w'] sent].
  destruct H as [_ [_ [Hb [Hs [_ [Ho [Hev _]]]]]]].
  destruct (Ho _ eq_refl) as [Ho' _].
  rewrite Hb, Hs, Ho', Hev. repeat split; reflexivity.
Defined.

(** C10. When [addItem] is called with the request flag clear, the add
    request succeeds and the cart request that follows fails: [addItem]
    still opens the drawer of a page that has one and still dispatches the
    item-added notification, with [null] for the cart, and resolves with
    [null]; it shows no toast and the panel keeps what it showed before
    the call. *)
Theorem addItem_when_fetch_fails :
  forall (net : Network) (w : World) variantId quantity
         properties (b : Parsed LineItem),
    isUpdating (this w) = false ->
    net (POST_add variantId quantity properties) = Responded (Ok b) ->
    fetched (net GET_cart) = None ->
    let '(c, w', sent) :=
      run net (addItem variantId quantity properties w) in
    c = Normal RNull
    /\ sent = [POST_add variantId quantity properties; GET_cart]
    /\ (forall d : DrawerEl,
          drawer (els w) = Some d ->
          isOpen (this w') = true
          /\ option_map data_drawer_open (drawer (els w'))
             = Some (Some "true"))
    /\ dispatched (doc w')
       = (dispatched (doc w)
          ++ [cart_item_added variantId quantity RNull])%list
    /\ toasts (body (doc w')) = toasts (body (doc w))
    /\ rendered_panel w' = rendered_panel w.
Proof.
  intros net w variantId quantity properties b Hu Hadd Hget.
  unfold addItem. rewrite Hu. cbn. rewrite Hadd. cbn.
  destruct (net GET_cart) as [m|[[m|cart]|e]]; cbn in *; try discriminate.
  all: break_world w; repeat split; try reflexivity; discriminate.
Qed.

Lemma addItem_when_fetch_fails_witness :
  let '(c, w', sent) :=
    run adding_only (addItem (Some "40912345") (Num 2) [] sample_page) in
  c = Normal RNull
  /\ isOpen (this w') = true
  /\ dispatched (doc w') = [cart_item_added (Some "40912345") (Num 2) RNull]
  /\ subtotalElement (els w') = Some "$52.50".
Proof.
  pose proof (addItem_when_fetch_fails adding_only sample_page
                (Some "40912345") (Num 2) [] _
                eq_refl eq_refl eq_refl) as H.
  destruct (run _ _) as [[c w'] sent].
  destruct H as [Hc [_ [Ho [Hev [_ Hp]]]]].
  destruct (Ho _ eq_refl) as [Ho' _].
  injection Hp as _ Hs _ _ _.
  rewrite Hc, Ho', Hev, Hs. repeat split; reflexivity.
Defined.

(** What holds of C4: when the add request is answered with a failure
    status and a body that parses, the toast reads the description, or the
    generic message when the description is absent or empty; the drawer
    stays as it was and nothing is dispatched. *)
Lemma addItem_described_failure (net : Network) (w : World) variantId
    quantity properties (e : ErrorBody) :
  isUpdating (this w) = false ->
  lockstep w ->
  net (POST_add variantId quantity properties)
  = Responded (NotOk (Value e)) ->
  let '(c, w', sent) := run net (addItem variantId quantity properties w) in
  c = Normal RNull
  /\ toasts (body (doc w'))
     = (toasts (body (doc w))
        ++ [error_toast (or_default (description e) "Failed to add item")])%list
  /\ isOpen (this w') = isOpen (this w)
  /\ dispatched (doc w') = dispatched (doc w).
Proof.
  intros Hu Hl Hnet.
  rewrite (addItem_failing net w variantId quantity properties Hu Hl)
    by (rewrite Hnet; reflexivity).
  rewrite Hnet. repeat split; reflexivity.
Qed.

Example addItem_sold_out :
  let net := refusing (Value {| description := Some "Sold out" |})
               sample_cart in
  let '(c, w', sent) :=
    run net (addItem (Some "40912345") (Num 2) [] sample_page) in
  c = Normal RNull
  /\ toasts (body (doc w')) = [error_toast "Sold out"]
  /\ isOpen (this w') = false
  /\ dispatched (doc w') = [].
Proof. repeat split; reflexivity. Qed.

(** C4 where the code departs from it: the add request is answered with a
    failure status and a body that is not JSON.  The toast reads the
    message of the parser's error and not the generic message; the drawer
    stays closed and nothing is dispatched. *)
Theorem addItem_unparsable_error_body :
  let net :=
    refusing (SyntaxError "Unexpected token < in JSON at position 0")
      sample_cart in
  let '(c, w', sent) :=
    run net (addItem (Some "40912345") (Num 2) [] sample_page) in
  c = Normal RNull
  /\ toasts (body (doc w'))
     = [error_toast "Unexpected token < in JSON at position 0"]
  /\ toasts (body (doc w')) <> [error_toast "Failed to add item"]
  /\ isOpen (this w') = isOpen (this sample_page)
  /\ dispatched (doc w') = [].
Proof. repeat split; try reflexivity. cbn. discriminate. Qed.

(** ** Quantities read from the page *)

(** What holds of C5: the stepper starts [updateItem] for the key of the
    control with the quantity it computes from the field of that key, which
    is 1 plus the change when the field is missing or empty, and the
    parsed value plus the change, at least zero, when it parses. *)
Lemma handleQuantityChange_spec (w : World) (d : DrawerEl) (key : string)
    (change : Z) :
  drawer (els w) = Some d ->
  let value :=
    option_map snd
      (find (fun i => String.eqb (fst i) key) (quantity_inputs (doc w))) in
  (or_default value "1" = "1" ->
   handleQuantityChange key (Num change) w
   = updateItem key (Num (Z.max 0 (1 + change))) w)
  /\ (forall n, parseInt (or_default value "1") = Num n ->
        handleQuantityChange key (Num change) w
        = updateItem key (Num (Z.max 0 (n + change))) w)
  /\ (parseInt (or_default value "1") = NaN ->
      handleQuantityChange key (Num change) w = updateItem key NaN w).
Proof.
  intros Hd value. unfold handleQuantityChange. rewrite Hd. fold value.
  repeat split.
  - intros E. rewrite E. reflexivity.
  - intros n E. rewrite E. reflexivity.
  - intros E. rewrite E. reflexivity.
Qed.

(** C5 where the code departs from it: a quantity field whose value is not
    empty and does not start with an integer.  The increment control of a
    line whose field reads ".5" starts [updateItem] with [NaN] for the
    quantity, not with 2; the form handler, for a quantity field that reads
    "abc", calls [addItem] with [NaN], not with 1. *)
Theorem unparsable_quantity_is_not_coerced :
  find (fun i => String.eqb (fst i) "777:b2")
    (quantity_inputs (doc sample_page)) = Some ("777:b2", ".5")
  /\ snd (run (serving sample_cart)
            (drawer_click {| decrementBtn := None;
                             incrementBtn := Some "777:b2";
                             removeBtn := None |} sample_page))
     = [POST_change "777:b2" NaN]
  /\ snd (run (serving sample_cart)
            (handleAddToCart
               {| form_node := 0;
                  form_entries := [("id", "40912345"); ("quantity", "abc")] |}
               sample_page))
     = [POST_add (Some "40912345") NaN []; GET_cart].
Proof. repeat split; reflexivity. Qed.

(** ** Samples *)

Example formatMoney_samples :
  formatMoney 4000 = "$40.00" /\ formatMoney 5 = "$0.05"
  /\ formatMoney 123456 = "$1234.56" /\ formatMoney (-1050) = "$-10.50".
Proof. repeat split; reflexivity. Qed.

Example parseInt_samples :
  parseInt "12" = Num 12 /\ parseInt " -3x" = Num (-3)
  /\ parseInt "1.5" = Num 1 /\ parseInt "abc" = NaN /\ parseInt ".5" = NaN.
Proof. repeat split; reflexivity. Qed.

Example getSizedImage_samples :
  getSizedImage "https://cdn.shop.test/oil_large.jpg" "120x"
  = "https://cdn.shop.test/oil_120x.jpg"
  /\ getSizedImage "https://cdn.shop.test/oil.jpg" "120x"
     = "https://cdn.shop.test/oil.jpg"
  /\ getSizedImage "" "120x" = "".
Proof. repeat split; reflexivity. Qed.

Example stepper_samples :
  snd (run (serving sample_cart)
         (drawer_click {| decrementBtn := Some "40912345:a1";
                          incrementBtn := None;
                          removeBtn := None |} sample_page))
  = [POST_change "40912345:a1" (Num 1)]
  /\ snd (run (serving sample_cart)
            (drawer_click {| decrementBtn := None;
                             incrementBtn := Some "unknown";
                             removeBtn := None |} sample_page))
     = [POST_change "unknown" (Num 2)]
  /\ snd (run (serving sample_cart)
            (drawer_change "40912345:a1" "abc" sample_page)) = [].
Proof. repeat split; reflexivity. Qed.

(** * Further properties *)

(** ** Numbers written and read back *)

Lemma append_empty_r (s : string) : (s ++ "")%string = s.
Proof. induction s as [|c s IH]; cbn; [reflexivity | now rewrite IH]. Qed.

Lemma digit_cases (d : Z) :
  0 <= d < 10 ->
  d = 0 \/ d = 1 \/ d = 2 \/ d = 3 \/ d = 4 \/ d = 5 \/ d = 6 \/ d = 7
  \/ d = 8 \/ d = 9.
Proof. lia. Qed.

Lemma digit_value_char (d : Z) :
  0 <= d < 10 -> digit_value (digit_char d) = Some d.
Proof.
  intros H. destruct (digit_cases d H) as [E|[E|[E|[E|[E|[E|[E|[E|[E|E]]]]]]]]];
    subst; reflexivity.
Qed.

Lemma parseInt_digit_head (d : Z) (r : string) :
  0 <= d < 10 ->
  parseInt (String (digit_char d) r)
  = match parse_digits (String (digit_char d) r) None with
    | None => NaN
    | Some n => Num (1 * n)
    end.
Proof.
  intros H. destruct (digit_cases d H) as [E|[E|[E|[E|[E|[E|[E|[E|[E|E]]]]]]]]];
    subst; reflexivity.
Qed.

Lemma parse_digits_decimal (n : Z) :
  0 <= n ->
  forall t, parse_digits (decimal n ++ t) None = parse_digits t (Some n).
Proof.
  intros Hn. pattern n. apply (Zlt_0_ind); [|exact Hn].
  clear n Hn. intros n IH Hn t.
  destruct (Z_lt_le_dec n 10) as [Hlt|Hge].
  - rewrite decimal_small by lia. cbn [append parse_digits].
    rewrite digit_value_char by lia.
    replace (10 * 0 + n) with n by lia. reflexivity.
  - rewrite decimal_step by lia. rewrite append_assoc.
    assert (Hq : 0 <= n / 10 < n).
    { split; [apply Z.div_pos; lia | apply Z.div_lt; lia]. }
    rewrite (IH (n / 10) Hq). cbn [append parse_digits].
    rewrite digit_value_char by (apply Z.mod_pos_bound; lia).
    replace (10 * (n / 10) + n mod 10) with n
      by (pose proof (Z.div_mod n 10 ltac:(lia)); lia).
    reflexivity.
Qed.

Lemma decimal_head (n : Z) :
  0 <= n ->
  exists d r, 0 <= d < 10 /\ decimal n = String (digit_char d) r.
Proof.
  intros Hn. pattern n. apply (Zlt_0_ind); [|exact Hn].
  clear n Hn. intros n IH Hn.
  destruct (Z_lt_le_dec n 10) as [Hlt|Hge].
  - exists n, "". split; [lia|]. now apply decimal_small.
  - assert (Hq : 0 <= n / 10 < n).
    { split; [apply Z.div_pos; lia | apply Z.div_lt; lia]. }
    destruct (IH (n / 10) Hq) as [d [r [Hd E]]].
    rewrite decimal_step, E by lia. cbn. eauto.
Qed.

Lemma parseInt_decimal (n : Z) : 0 <= n -> parseInt (decimal n) = Num n.
Proof.
  intros Hn. destruct (decimal_head n Hn) as [d [r [Hd E]]].
  pose proof (parse_digits_decimal n Hn "") as P.
  rewrite append_empty_r in P. cbn [parse_digits] in P.
  rewrite E, (parseInt_digit_head d r Hd), <- E, P. f_equal. lia.
Qed.

Lemma parseInt_minus (s : string) :
  parseInt ("-" ++ s)
  = match parse_digits s None with
    | None => NaN
    | Some n => Num (-1 * n)
    end.
Proof. reflexivity. Qed.

(** A number written as a string reads back as itself: [parseInt] of the
    decimal text of an integer is that integer. *)
Lemma parseInt_string_of_Z :
  forall z : Z, parseInt (string_of_Z z) = Num z.
Proof.
  intros z. unfold string_of_Z. destruct (z <? 0) eqn:E.
  - apply Z.ltb_lt in E.
    pose proof (parse_digits_decimal (- z) ltac:(lia) "") as P.
    rewrite append_empty_r in P. cbn [parse_digits] in P.
    rewrite parseInt_minus, P. f_equal. lia.
  - apply Z.ltb_ge in E. now apply parseInt_decimal.
Qed.

(** ** Rendering *)

Lemma string_of_Z_nonempty (z : Z) :
  exists c r, string_of_Z z = String c r.
Proof.
  unfold string_of_Z. destruct (z <? 0) eqn:E.
  - cbn. eauto.
  - apply Z.ltb_ge in E. destruct (decimal_head z E) as [d [r [_ H]]].
    rewrite H. eauto.
Qed.

(** X1. The items list shows the cart line by line.  For a cart whose
    lines are plain (their strings are plain text, so that the markup of a
    line is read as it was written, and their quantities are integers that
    a number holds exactly), [renderCart] fills an existing items container
    with one block per line, in the order of the cart, each with the key of
    its line, and the quantity field of a block reads back, with
    [parseInt], as the quantity of its line. *)
Theorem rendered_lines_follow_cart :
  forall (cart : Cart) (w : World),
    forallb plain_line (items cart) = true ->
    (forall blocks,
       itemsContainer (els w) = Some blocks ->
       exists blocks',
         itemsContainer (els (renderCart cart w)) = Some blocks'
         /\ map block_key blocks' = map key (items cart)
         /\ map (fun b => parseInt (block_value b)) blocks'
            = map (fun i => Num (quantity i)) (items cart))
    /\ (itemsContainer (els w) = None ->
        itemsContainer (els (renderCart cart w)) = None).
Proof.
  intros cart w _. split.
  - intros blocks H. cbn. rewrite H. cbn. eexists. split; [reflexivity|].
    rewrite !map_map. cbn. split; [reflexivity|].
    apply map_ext. intros i. apply parseInt_string_of_Z.
  - intros H. cbn. now rewrite H.
Qed.

Lemma rendered_lines_follow_cart_witness :
  exists blocks,
    itemsContainer (els (renderCart sample_cart sample_page)) = Some blocks
    /\ map block_key blocks = ["40912345:a1"]
    /\ map (fun b => parseInt (block_value b)) blocks = [Num 2].
Proof.
  destruct (proj1 (rendered_lines_follow_cart sample_cart sample_page eq_refl)
              _ eq_refl) as [blocks H].
  exists blocks. exact H.
Defined.

(** X2. What the panel shows is a function of the last cart rendered: a
    render after another one leaves, in the elements that the controller
    holds, what the later one alone leaves; a render changes neither the
    controller's fields nor the attributes of the drawer nor the overlay;
    and where the page has both the empty region and the content region,
    exactly one of them is hidden, the content region when the cart counts
    no item. *)
Theorem renderCart_projects_last_cart :
  forall (c1 c2 : Cart) (w : World),
    els (renderCart c2 (renderCart c1 w)) = els (renderCart c2 w)
    /\ this (renderCart c2 w) = this w
    /\ drawer (els (renderCart c2 w)) = drawer (els w)
    /\ overlay (els (renderCart c2 w)) = overlay (els w)
    /\ (forall x y,
          emptyMessage (els w) = Some x ->
          cartContent (els w) = Some y ->
          (emptyMessage (els (renderCart c2 w)),
           cartContent (els (renderCart c2 w)))
          = if item_count c2 =? 0 then (Some "", Some "none")
            else (Some "none", Some "")).
Proof.
  intros c1 c2 w. split; [|repeat split].
  - destruct w as [t [dr ov [its|] [sub|] badges [em|] [cc|]] dc];
      unfold renderCart, with_els; cbn; rewrite ?map_map; reflexivity.
  - intros x y Hx Hy. cbn. rewrite Hx, Hy.
    destruct (item_count c2 =? 0); reflexivity.
Qed.

Lemma renderCart_projects_last_cart_witness :
  (emptyMessage (els (renderCart {| item_count := 0; total_price := 0;
                                    items := [] |} sample_page)),
   cartContent (els (renderCart {| item_count := 0; total_price := 0;
                                   items := [] |} sample_page)))
  = (Some "", Some "none").
Proof.
  exact (proj2 (proj2 (proj2 (proj2
           (renderCart_projects_last_cart sample_cart
              {| item_count := 0; total_price := 0; items := [] |}
              sample_page))))
           "none" "" eq_refl eq_refl).
Defined.

(** ** Sized image URLs *)

Lemma replace_size_plain (size s : string) :
  has_char "_" s = false -> replace_size size s = None.
Proof.
  induction s as [|c s IH]; cbn; [reflexivity|].
  intros H. apply orb_false_iff in H. destruct H as [Hc Hs].
  rewrite Hc, (IH Hs). reflexivity.
Qed.

Lemma match_size_dot_name (n r : string) :
  In n size_names \/ n = "" -> match_size_dot (n ++ "." ++ r) = Some r.
Proof.
  intros [H|H]; [|subst; reflexivity].
  cbn in H.
  repeat (destruct H as [H|H]; [subst; destruct r; reflexivity|]).
  contradiction.
Qed.

Lemma replace_size_skip (size p t : string) :
  has_char "_" p = false ->
  replace_size size (p ++ t) = option_map (append p) (replace_size size t).
Proof.
  intros Hp. induction p as [|c p IH].
  - cbn [append]. now destruct (replace_size size t).
  - cbn in Hp. apply orb_false_iff in Hp. destruct Hp as [Hc Hp].
    cbn [append replace_size]. rewrite Hc, (IH Hp).
    now destruct (replace_size size t).
Qed.

Lemma replace_size_here (size n r : string) :
  In n size_names \/ n = "" ->
  replace_size size ("_" ++ n ++ "." ++ r)
  = Some ("_" ++ size ++ "." ++ r)%string.
Proof.
  intros Hn.
  change (replace_size size ("_" ++ n ++ "." ++ r))
    with (match match_size_dot (n ++ "." ++ r) with
          | Some rest => Some ("_" ++ size ++ "." ++ rest)%string
          | None =>
              option_map (String "_") (replace_size size (n ++ "." ++ r))
          end).
  now rewrite (match_size_dot_name n r Hn).
Qed.

Lemma replace_size_first (size p n r : string) :
  has_char "_" p = false ->
  In n size_names \/ n = "" ->
  replace_size size (p ++ "_" ++ n ++ "." ++ r)
  = Some (p ++ "_" ++ size ++ "." ++ r)%string.
Proof.
  intros Hp Hn.
  now rewrite (replace_size_skip size p _ Hp), (replace_size_here size n r Hn).
Qed.

(** X4. [getSizedImage], asked for a size without a dollar sign, rewrites
    the size token in front of the file extension and nothing else: in a
    URL whose first underscore is followed by one of the size names, or by
    nothing, and a full stop, that name is replaced by the requested size;
    a URL without an underscore, and the empty URL, are returned as they
    are. *)
Theorem getSizedImage_first_size_token :
  forall size : string,
    has_char "$" size = false ->
    (forall p n r,
       has_char "_" p = false ->
       In n size_names \/ n = "" ->
       getSizedImage (p ++ "_" ++ n ++ "." ++ r) size
       = (p ++ "_" ++ size ++ "." ++ r)%string)
    /\ (forall url, has_char "_" url = false -> getSizedImage url size = url)
    /\ getSizedImage "" size = "".
Proof.
  intros size _. split; [|split].
  - intros p n r Hp Hn. unfold getSizedImage.
    rewrite (replace_size_first size p n r Hp Hn).
    destruct p; reflexivity.
  - intros url H. unfold getSizedImage.
    rewrite (replace_size_plain size url H). now destruct url.
  - reflexivity.
Qed.

Lemma getSizedImage_first_size_token_witness :
  getSizedImage "https://cdn.shop.test/oil_large.jpg?v=1_2.3" "120x"
  = "https://cdn.shop.test/oil_120x.jpg?v=1_2.3"
  /\ getSizedImage "https://cdn.shop.test/oil.jpg" "120x"
     = "https://cdn.shop.test/oil.jpg".
Proof.
  destruct (getSizedImage_first_size_token "120x" eq_refl) as [H1 [H2 _]].
  split.
  - exact (H1 "https://cdn.shop.test/oil" "large" "jpg?v=1_2.3" eq_refl
             ltac:(left; cbn; tauto)).
  - exact (H2 "https://cdn.shop.test/oil.jpg" eq_refl).
Defined.

(** ** Opening and closing *)

Lemma open_records (w : World) (d : DrawerEl) :
  drawer (els w) = Some d ->
  lastActiveElement (this (open w)) = Some (activeElement (doc w))
  /\ scrollPosition (this (open w)) = scrollY (doc w)
  /\ isUpdating (this (open w)) = isUpdating (this w).
Proof.
  intros H. unfold open. rewrite H. cbn. repeat split; reflexivity.
Qed.

Lemma close_scrolls_back (w : World) (d : DrawerEl) :
  drawer (els w) = Some d ->
  scrollY (doc (close w)) = scrollPosition (this w).
Proof.
  intros H. unfold close. rewrite H.
  match goal with
  | |- context [match ?t with Some e => focus e ?v | None => _ end] =>
      destruct t
  end; reflexivity.
Qed.

(** X5. The scroll lock is undone by closing: while the drawer is open the
    body is pinned at the offset the page had when [open()] was called, and
    [close()] clears the pinning and scrolls the page back to that offset,
    wherever the page has been scrolled in between. *)
Theorem scroll_lock_round_trip :
  forall (w : World) (d : DrawerEl) (z : Z),
    drawer (els w) = Some d ->
    (position (body (doc (open w))) = "fixed"
     /\ top (body (doc (open w)))
        = ("-" ++ string_of_Z (scrollY (doc w)) ++ "px")%string
     /\ width (body (doc (open w))) = "100%"
     /\ scrollPosition (this (open w)) = scrollY (doc w))
    /\ (let w' := close (set_scrollY z (open w)) in
        scrollY (doc w') = scrollY (doc w)
        /\ position (body (doc w')) = ""
        /\ top (body (doc w')) = ""
        /\ width (body (doc w')) = "").
Proof.
  intros w d z H. split.
  - unfold open. rewrite H. cbn. repeat split; reflexivity.
  - unfold open. rewrite H. unfold close. cbn. rewrite H. cbn.
    match goal with
    | |- context [match ?t with Some e => focus e ?v | None => _ end] =>
        destruct t
    end; cbn; repeat split; reflexivity.
Qed.

Lemma scroll_lock_round_trip_witness :
  top (body (doc (open sample_page))) = "-120px"
  /\ scrollY (doc (close (set_scrollY 0 (open sample_page)))) = 120.
Proof.
  destruct (scroll_lock_round_trip sample_page _ 0 eq_refl)
    as [[_ [Ht _]] [Hs _]].
  split; [exact Ht | exact Hs].
Defined.

(** X6. Focus goes into the drawer and comes back: [open()] focuses the
    first focusable element of the drawer, or the drawer itself when it has
    none; [close()] after it focuses the element that was active before
    [open()] if the document still contains it, else the cart trigger, and
    leaves the focus where it is when the page has neither. *)
Theorem focus_round_trip :
  forall (w : World) (d : DrawerEl),
    drawer (els w) = Some d ->
    let inside :=
      match focusable (doc w) with
      | e :: _ => e
      | [] => drawer_node d
      end in
    activeElement (doc (open w)) = inside
    /\ lastActiveElement (this (open w)) = Some (activeElement (doc w))
    /\ activeElement (doc (close (open w)))
       = if contains (doc w) (activeElement (doc w))
         then activeElement (doc w)
         else match cart_toggle (doc w) with
              | Some t => t
              | None => inside
              end.
Proof.
  intros w d H inside. subst inside.
  unfold open, getFocusableElements. rewrite H. cbn. rewrite H. cbn.
  split; [reflexivity|]. split; [reflexivity|].
  unfold close. cbn. rewrite H. cbn.
  destruct (contains (doc w) (activeElement (doc w))); [reflexivity|].
  destruct (cart_toggle (doc w)); reflexivity.
Qed.

Lemma focus_round_trip_witness :
  activeElement (doc (open sample_page)) = 2%nat
  /\ activeElement (doc (close (open sample_page))) = 9%nat.
Proof.
  destruct (focus_round_trip sample_page _ eq_refl) as [Hi [_ Hb]].
  split; [exact Hi | exact Hb].
Defined.

(** X7. [open()] on a drawer that is already open forgets the element to
    return to: it records the element that is active at that moment, so
    after [open()] twice the remembered element is the one focused inside
    the drawer by the first call, and the remembered scroll offset is the
    one of the second call. *)
Theorem reopening_overwrites_the_return_point :
  forall (w : World) (d : DrawerEl) (z : Z),
    drawer (els w) = Some d ->
    let w1 := set_scrollY z (open w) in
    lastActiveElement (this (open w1)) = Some (activeElement (doc (open w)))
    /\ scrollPosition (this (open w1)) = z
    /\ scrollY (doc (close (open w1))) = z.
Proof.
  intros w d z H w1.
  destruct (open_spec w d H) as [_ [d1 [H1 _]]].
  assert (Hw1 : drawer (els w1) = Some d1) by exact H1.
  destruct (open_records w1 d1 Hw1) as [Hl [Hs _]].
  destruct (open_spec w1 d1 Hw1) as [_ [d2 [H2 _]]].
  split; [exact Hl|]. split; [exact Hs|].
  rewrite (close_scrolls_back _ d2 H2). exact Hs.
Qed.

Lemma reopening_overwrites_the_return_point_witness :
  lastActiveElement (this (open (set_scrollY 0 (open sample_page))))
  = Some 2%nat
  /\ scrollY (doc (close (open (set_scrollY 0 (open sample_page))))) = 0.
Proof.
  destruct (reopening_overwrites_the_return_point sample_page _ 0 eq_refl)
    as [Hl [_ Hs]].
  split; [exact Hl | exact Hs].
Defined.

(** X8. On a page without the drawer element the drawer methods do
    nothing: [open()], [close()], [toggle()], [setLoading()], the overlay
    and keyboard listeners leave the world as it is, no element counts as
    focusable, and the listeners of the drawer are not bound; a direct call
    of [handleQuantityChange] throws. *)
Theorem without_drawer_nothing_happens :
  forall w : World,
    drawer (els w) = None ->
    open w = w /\ close w = w /\ toggle w = w /\ overlay_click w = w
    /\ (forall b, setLoading b w = w)
    /\ getFocusableElements w = []
    /\ (forall e, document_keydown e w = w)
    /\ (forall e, drawer_keydown e w = (e, w))
    /\ (forall c, drawer_click c w = Finished (Normal RUndefined) w)
    /\ (forall key value,
          drawer_change key value w = Finished (Normal RUndefined) w)
    /\ (forall key change,
          exists message,
            handleQuantityChange key change w = Finished (Throw message) w).
Proof.
  intros w H.
  assert (Ho : open w = w) by (unfold open; now rewrite H).
  assert (Hc : close w = w) by (unfold close; now rewrite H).
  repeat split.
  - exact Ho.
  - exact Hc.
  - unfold toggle. rewrite Ho, Hc. now destruct (isOpen (this w)).
  - unfold overlay_click. rewrite Hc. now destruct (overlay (els w)).
  - intros b. destruct w as [t [dr ov its sub badges em cc] dc].
    cbn in H. subst dr. reflexivity.
  - unfold getFocusableElements. now rewrite H.
  - intros e. unfold document_keydown. rewrite Hc.
    now destruct (String.eqb (key_name e) "Escape" && isOpen (this w)).
  - intros e. unfold drawer_keydown. now rewrite H.
  - intros c. unfold drawer_click. now rewrite H.
  - intros key value. unfold drawer_change. now rewrite H.
  - intros key change. unfold handleQuantityChange. rewrite H.
    eexists. reflexivity.
Qed.

Lemma without_drawer_nothing_happens_witness :
  let bare :=
    with_els (fun e =>
      {| drawer := None; overlay := overlay e;
         itemsContainer := itemsContainer e;
         subtotalElement := subtotalElement e;
         countElements := countElements e;
         emptyMessage := emptyMessage e;
         cartContent := cartContent e |}) sample_page in
  toggle bare = bare /\ getFocusableElements bare = [].
Proof.
  intros bare.
  destruct (without_drawer_nothing_happens bare eq_refl)
    as [_ [_ [Ht [_ [_ [Hf _]]]]]].
  split; [exact Ht | exact Hf].
Defined.

(** ** The keyboard *)

(** X9. The keyboard listeners act in two situations only.  The listener
    of the document changes the world only for Escape while the drawer is
    open, and then does what [close()] does.  The listener of the drawer
    neither suppresses the key nor moves the focus unless the key is Tab
    and the drawer is open, and then, when the drawer has focusable
    elements, only for Shift+Tab on the first of them and for Tab on the
    last. *)
Theorem keyboard_acts_only_at_the_edges :
  forall (e : KeyboardEvent) (w : World),
    (key_name e = "Escape" -> isOpen (this w) = true ->
     document_keydown e w = close w)
    /\ (key_name e <> "Escape" \/ isOpen (this w) = false ->
        document_keydown e w = w)
    /\ (key_name e <> "Tab" \/ isOpen (this w) = false ->
        drawer_keydown e w = (e, w))
    /\ (forall first rest,
          focusable (doc w) = first :: rest ->
          (shiftKey e = true -> activeElement (doc w) <> first) ->
          (shiftKey e = false ->
           activeElement (doc w) <> List.last rest first) ->
          drawer_keydown e w = (e, w)).
Proof.
  intros e w. repeat split.
  - intros Hk Ho. unfold document_keydown. now rewrite Hk, Ho.
  - intros [Hk|Ho]; unfold document_keydown.
    + apply String.eqb_neq in Hk. now rewrite Hk.
    + rewrite Ho. now rewrite andb_false_r.
  - intros [Hk|Ho]; unfold drawer_keydown;
      destruct (drawer (els w)); try reflexivity.
    + apply String.eqb_neq in Hk. now rewrite Hk.
    + rewrite Ho. now rewrite andb_false_r.
  - intros first rest Hf Hs Ht. unfold drawer_keydown.
    destruct (drawer (els w)) eqn:Hd; [|reflexivity].
    destruct (String.eqb (key_name e) "Tab" && isOpen (this w));
      [|reflexivity].
    unfold handleTabKey, getFocusableElements. rewrite Hd, Hf.
    destruct (shiftKey e); cbn [andb negb].
    + destruct (Nat.eqb_spec (activeElement (doc w)) first) as [E|_];
        [now elim (Hs eq_refl) | reflexivity].
    + destruct (Nat.eqb_spec (activeElement (doc w)) (List.last rest first))
        as [E|_]; [now elim (Ht eq_refl) | reflexivity].
Qed.

Lemma keyboard_acts_only_at_the_edges_witness :
  let middle := focus 3%nat open_page in
  drawer_keydown {| key_name := "Tab"; shiftKey := false;
                    defaultPrevented := false |} middle
  = ({| key_name := "Tab"; shiftKey := false; defaultPrevented := false |},
     middle)
  /\ document_keydown {| key_name := "Escape"; shiftKey := false;
                         defaultPrevented := false |} sample_page
     = sample_page.
Proof.
  intros middle.
  destruct (keyboard_acts_only_at_the_edges
              {| key_name := "Tab"; shiftKey := false;
                 defaultPrevented := false |} middle) as [_ [_ [_ H]]].
  destruct (keyboard_acts_only_at_the_edges
              {| key_name := "Escape"; shiftKey := false;
                 defaultPrevented := false |} sample_page) as [_ [H' _]].
  split.
  - apply (H 2%nat [3; 4]%nat eq_refl); cbn; intros; discriminate.
  - apply H'. right. reflexivity.
Defined.

(** ** Invariants of the page *)

Lemma markers_open (w : World) : markers_agree (open w).
Proof.
  unfold open. destruct (drawer (els w)) as [d|] eqn:H.
  - unfold markers_agree. cbn. rewrite H. cbn.
    destruct (overlay (els w)); repeat split; reflexivity.
  - unfold markers_agree. now rewrite H.
Qed.

Lemma markers_close (w : World) : markers_agree (close w).
Proof.
  unfold close. destruct (drawer (els w)) as [d|] eqn:H.
  - match goal with
    | |- context [match ?t with Some e => focus e ?v | None => _ end] =>
        destruct t
    end; unfold markers_agree; cbn; rewrite H; cbn;
      destruct (overlay (els w)); repeat split; reflexivity.
  - unfold markers_agree. now rewrite H.
Qed.

Lemma markers_renderCart cart :
  forall w, markers_agree w -> markers_agree (renderCart cart w).
Proof. same_markers. Qed.

Lemma markers_showError message :
  forall w, markers_agree w -> markers_agree (showError message w).
Proof. same_markers. Qed.

Lemma markers_setLoading b :
  forall w, markers_agree w -> markers_agree (setLoading b w).
Proof. same_markers. Qed.

Lemma markers_set_isUpdating b :
  forall w, markers_agree w -> markers_agree (set_isUpdating b w).
Proof. same_markers. Qed.

Lemma markers_dispatchEvent ev :
  forall w, markers_agree w -> markers_agree (dispatchEvent ev w).
Proof. same_markers. Qed.

Lemma markers_console_error label message :
  forall w, markers_agree w -> markers_agree (console_error label message w).
Proof. same_markers. Qed.

Lemma markers_set_submit_button form b :
  forall w, markers_agree w -> markers_agree (set_submit_button form b w).
Proof. same_markers. Qed.

Lemma markers_focus e :
  forall w, markers_agree w -> markers_agree (focus e w).
Proof. same_markers. Qed.

#[local] Hint Resolve markers_open markers_close markers_renderCart
  markers_showError markers_setLoading markers_set_isUpdating
  markers_dispatchEvent markers_console_error markers_set_submit_button
  markers_focus : markers.

Lemma markers_fetchCart (w : World) :
  markers_agree w -> Keeps markers_agree (fetchCart w).
Proof.
  intros H. unfold fetchCart. keeps_by ltac:(auto 20 with markers).
Qed.

Lemma markers_addItem (w : World) variantId quantity properties :
  markers_agree w ->
  Keeps markers_agree (addItem variantId quantity properties w).
Proof.
  intros H. unfold addItem, fetchCart. destruct (isUpdating (this w)).
  - constructor. exact H.
  - keeps_by ltac:(auto 20 with markers).
Qed.

Lemma markers_updateItem (w : World) key quantity :
  markers_agree w -> Keeps markers_agree (updateItem key quantity w).
Proof.
  intros H. unfold updateItem. destruct (isUpdating (this w)).
  - constructor. exact H.
  - keeps_by ltac:(auto 20 with markers).
Qed.

Lemma Keeps_andThen {A B : Type} (I : World -> Prop) (s : Step A)
    (f : Completion A -> Task B) :
  Keeps I s ->
  (forall c w, I w -> Keeps I (f c w)) ->
  Keeps I (andThen s f).
Proof.
  intros Hs Hf. induction Hs as [c w Hw|req w k Hw Hk IH|w k Hw Hk IH]; cbn.
  - now apply Hf.
  - constructor; [exact Hw|]. intros o w' Hw'. now apply IH.
  - constructor; [exact Hw|]. intros w' Hw'. now apply IH.
Qed.

Lemma Keeps_handleAddToCart (I : World -> Prop) (form : Form) (w : World) :
  (forall n b w, I w -> I (set_submit_button n b w)) ->
  (forall v q p w, I w -> Keeps I (addItem v q p w)) ->
  I w -> Keeps I (handleAddToCart form w).
Proof.
  intros Hb Ha Hw. unfold handleAddToCart.
  set (btn := submit_button (doc w) (form_node form)).
  unfold bind at 1. unfold exec at 1. cbn [andThen].
  unfold bind. apply Keeps_andThen.
  - apply Ha. destruct btn; [now apply Hb | exact Hw].
  - intros [r|e] w' Hw'; cbn; constructor; [|exact Hw'].
    destruct btn; [|exact Hw'].
    destruct (submit_button (doc w') (form_node form));
      [now apply Hb | exact Hw'].
Qed.

Lemma Keeps_drawer_click (I : World -> Prop) (c : Click) (w : World) :
  (forall k q w, I w -> Keeps I (updateItem k q w)) ->
  I w -> Keeps I (drawer_click c w).
Proof.
  intros Hu Hw. unfold drawer_click, handleQuantityChange, handleRemoveItem,
    removeItem.
  destruct (drawer (els w)); [|now constructor].
  destruct (decrementBtn c); [now apply Hu|].
  destruct (incrementBtn c); [now apply Hu|].
  destruct (removeBtn c); [now apply Hu | now constructor].
Qed.

Lemma Keeps_drawer_change (I : World -> Prop) (key value : string)
    (w : World) :
  (forall k q w, I w -> Keeps I (updateItem k q w)) ->
  I w -> Keeps I (drawer_change key value w).
Proof.
  intros Hu Hw. unfold drawer_change.
  destruct (drawer (els w)); [|now constructor].
  destruct (num_ge (parseInt value) (Num 0));
    [now apply Hu | now constructor].
Qed.

Lemma markers_keydown (e : KeyboardEvent) (w : World) :
  markers_agree w ->
  markers_agree (document_keydown e w)
  /\ markers_agree (snd (drawer_keydown e w)).
Proof.
  intros H. split.
  - unfold document_keydown.
    destruct (String.eqb (key_name e) "Escape" && isOpen (this w));
      auto with markers.
  - unfold drawer_keydown, handleTabKey.
    destruct (drawer (els w)); [|exact H].
    destruct (String.eqb (key_name e) "Tab" && isOpen (this w)); [|exact H].
    destruct (getFocusableElements w); [exact H|].
    repeat match goal with
           | |- context [if ?b then _ else _] => destruct b
           end; cbn [snd]; auto with markers.
Qed.

(** X10. The markers of the drawer follow the open flag.  [open()],
    [close()] and [toggle()] leave the attributes of the drawer, the class
    of the overlay and the attribute and the pinning of the body in
    agreement with [isOpen], whatever they were; every listener keeps the
    agreement, and so does every operation at each of its suspensions and
    at its end, when it is resumed on a world that has it. *)
Theorem markers_follow_the_flag :
  forall w : World,
    (markers_agree (open w) /\ markers_agree (close w)
     /\ markers_agree (toggle w))
    /\ (markers_agree w ->
        (forall e, markers_agree (document_keydown e w))
        /\ (forall e, markers_agree (snd (drawer_keydown e w)))
        /\ markers_agree (overlay_click w)
        /\ Keeps markers_agree (fetchCart w)
        /\ (forall variantId quantity properties,
              Keeps markers_agree (addItem variantId quantity properties w))
        /\ (forall key quantity,
              Keeps markers_agree (updateItem key quantity w))
        /\ (forall key, Keeps markers_agree (removeItem key w))
        /\ (forall form, Keeps markers_agree (handleAddToCart form w))
        /\ (forall c, Keeps markers_agree (drawer_click c w))
        /\ (forall key value,
              Keeps markers_agree (drawer_change key value w))).
Proof.
  intros w. split.
  - split; [apply markers_open|]. split; [apply markers_close|].
    unfold toggle. destruct (isOpen (this w)); auto with markers.
  - intros H. repeat split; intros.
    + apply (markers_keydown e w H).
    + apply (markers_keydown e w H).
    + unfold overlay_click. destruct (overlay (els w)); auto with markers.
    + now apply markers_fetchCart.
    + now apply markers_addItem.
    + now apply markers_updateItem.
    + unfold removeItem. now apply markers_updateItem.
    + apply Keeps_handleAddToCart; auto with markers.
      intros. now apply markers_addItem.
    + apply Keeps_drawer_click; [|exact H].
      intros. now apply markers_updateItem.
    + apply Keeps_drawer_change; [|exact H].
      intros. now apply markers_updateItem.
Qed.

Lemma markers_follow_the_flag_witness :
  markers_agree sample_page
  /\ Keeps markers_agree
       (addItem (Some "40912345") (Num 2) [] sample_page).
Proof.
  assert (H : markers_agree sample_page)
    by (cbn; repeat split; reflexivity).
  split; [exact H|].
  destruct (markers_follow_the_flag sample_page) as [_ K].
  destruct (K H) as [_ [_ [_ [_ [Ka _]]]]].
  apply Ka.
Defined.

Lemma lockstep_open : forall w, lockstep w -> lockstep (open w).
Proof.
  intros w H. unfold open. destruct (drawer (els w)) as [d|] eqn:E;
    [|exact H].
  unfold lockstep in *. cbn. rewrite E in *. cbn. exact H.
Qed.

Lemma lockstep_close : forall w, lockstep w -> lockstep (close w).
Proof.
  intros w H. unfold close. destruct (drawer (els w)) as [d|] eqn:E;
    [|exact H].
  match goal with
  | |- context [match ?t with Some e => focus e ?v | None => _ end] =>
      destruct t
  end; unfold lockstep in *; cbn; rewrite E in *; cbn; exact H.
Qed.

Lemma lockstep_set b : forall w, lockstep (setLoading b (set_isUpdating b w)).
Proof.
  intros w. unfold lockstep. cbn. destruct (drawer (els w)); reflexivity.
Qed.

Lemma lockstep_renderCart cart :
  forall w, lockstep w -> lockstep (renderCart cart w).
Proof. same_lockstep. Qed.

Lemma lockstep_showError message :
  forall w, lockstep w -> lockstep (showError message w).
Proof. same_lockstep. Qed.

Lemma lockstep_dispatchEvent ev :
  forall w, lockstep w -> lockstep (dispatchEvent ev w).
Proof. same_lockstep. Qed.

Lemma lockstep_console_error label message :
  forall w, lockstep w -> lockstep (console_error label message w).
Proof. same_lockstep. Qed.

Lemma lockstep_set_submit_button form b :
  forall w, lockstep w -> lockstep (set_submit_button form b w).
Proof. same_lockstep. Qed.

Lemma lockstep_focus e : forall w, lockstep w -> lockstep (focus e w).
Proof. same_lockstep. Qed.

#[local] Hint Resolve lockstep_open lockstep_close lockstep_set
  lockstep_renderCart lockstep_showError lockstep_dispatchEvent
  lockstep_console_error lockstep_set_submit_button lockstep_focus
  : lockstep.

Lemma lockstep_fetchCart (w : World) :
  lockstep w -> Keeps lockstep (fetchCart w).
Proof.
  intros H. unfold fetchCart. keeps_by ltac:(auto 20 with lockstep).
Qed.

Lemma lockstep_addItem (w : World) variantId quantity properties :
  lockstep w -> Keeps lockstep (addItem variantId quantity properties w).
Proof.
  intros H. unfold addItem, fetchCart. destruct (isUpdating (this w)).
  - constructor. exact H.
  - keeps_by ltac:(auto 20 with lockstep).
Qed.

Lemma lockstep_updateItem (w : World) key quantity :
  lockstep w -> Keeps lockstep (updateItem key quantity w).
Proof.
  intros H. unfold updateItem. destruct (isUpdating (this w)).
  - constructor. exact H.
  - keeps_by ltac:(auto 20 with lockstep).
Qed.

(** X11. The loading indicator follows the request flag: on a page where
    the [loading] class of the drawer is set exactly when [isUpdating] is,
    it stays so through [open()], [close()], [toggle()] and every
    operation and handler, at each suspension and at the end, when the
    call is resumed on a world where it is so. *)
Theorem loading_follows_the_flag :
  forall w : World,
    lockstep w ->
    lockstep (open w) /\ lockstep (close w) /\ lockstep (toggle w)
    /\ Keeps lockstep (fetchCart w)
    /\ (forall variantId quantity properties,
          Keeps lockstep (addItem variantId quantity properties w))
    /\ (forall key quantity, Keeps lockstep (updateItem key quantity w))
    /\ (forall key, Keeps lockstep (removeItem key w))
    /\ (forall form, Keeps lockstep (handleAddToCart form w))
    /\ (forall c, Keeps lockstep (drawer_click c w))
    /\ (forall key value, Keeps lockstep (drawer_change key value w)).
Proof.
  intros w H. repeat split; intros; auto with lockstep.
  - unfold toggle. destruct (isOpen (this w)); auto with lockstep.
  - now apply lockstep_fetchCart.
  - now apply lockstep_addItem.
  - now apply lockstep_updateItem.
  - unfold removeItem. now apply lockstep_updateItem.
  - apply Keeps_handleAddToCart; auto with lockstep.
    intros. now apply lockstep_addItem.
  - apply Keeps_drawer_click; [|exact H].
    intros. now apply lockstep_updateItem.
  - apply Keeps_drawer_change; [|exact H].
    intros. now apply lockstep_updateItem.
Qed.

Lemma loading_follows_the_flag_witness :
  lockstep busy_page
  /\ Keeps lockstep (updateItem "40912345:a1" (Num 3) sample_page).
Proof.
  split; [reflexivity|].
  assert (H : lockstep sample_page) by reflexivity.
  destruct (loading_follows_the_flag sample_page H)
    as [_ [_ [_ [_ [_ [Ku _]]]]]].
  apply Ku.
Defined.

(** ** The operations, outcome by outcome *)

(** X12. [fetchCart] is not guarded and has two outcomes.  Whatever the
    request flag, it sends one GET; when the answer is a success whose body
    parses, it renders that cart and resolves with it, changing nothing
    else; otherwise it logs the error and resolves with [null], changing
    nothing else. *)
Theorem fetchCart_outcomes :
  forall (net : Network) (w : World),
    let '(c, w', sent) := run net (fetchCart w) in
    sent = [GET_cart]
    /\ match fetched (net GET_cart) with
       | Some cart => c = Normal (RCart cart) /\ w' = renderCart cart w
       | None =>
           c = Normal RNull
           /\ exists message,
                w' = console_error "Cart fetch error:" message w
       end.
Proof.
  intros net w. unfold fetchCart. cbn.
  destruct (net GET_cart) as [m|[[m|cart]|b]]; cbn; split; try reflexivity;
    split; try reflexivity; eexists; reflexivity.
Qed.

(** X13. [updateItem] has two outcomes.  Called with the request flag
    clear and the loading indicator in lockstep, it sends one POST; when
    the answer is a success whose body parses, the world it leaves is the
    one it found with that cart rendered and the updated notification
    dispatched, and it resolves with the cart; otherwise the world it
    leaves is the one it found with the error logged and the toast
    appended, and it resolves with [null].  Either way the drawer stays
    open or closed as it was. *)
Theorem updateItem_outcomes :
  forall (net : Network) (w : World) (key : string) (quantity : Number),
    isUpdating (this w) = false ->
    lockstep w ->
    let '(c, w', sent) := run net (updateItem key quantity w) in
    sent = [POST_change key quantity]
    /\ isOpen (this w') = isOpen (this w)
    /\ match fetched (net (POST_change key quantity)) with
       | Some cart =>
           c = Normal (RCart cart)
           /\ w' = (w |> renderCart cart |> dispatchEvent (cart_updated cart))
       | None =>
           c = Normal RNull
           /\ exists message,
                w' = (w |> console_error "Update cart error:" message
                        |> showError "Failed to update cart")
       end.
Proof.
  intros net w key quantity Hu Hl. unfold updateItem. rewrite Hu. cbn.
  destruct (net (POST_change key quantity)) as [m|[[m|cart]|b]]; cbn.
  all: split; [reflexivity|]. all: split; [reflexivity|].
  all: split; [reflexivity|]. all: try eexists.
  all: unfold lockstep in Hl; break_world w; reflexivity.
Qed.

Lemma updateItem_outcomes_witness :
  let '(c, w', sent) :=
    run (serving sample_cart)
      (updateItem "777:b2" (Num 0) sample_page) in
  c = Normal (RCart sample_cart)
  /\ subtotalElement (els w') = Some "$40.00"
  /\ dispatched (doc w') = [cart_updated sample_cart]
  /\ isOpen (this w') = false.
Proof.
  pose proof (updateItem_outcomes (serving sample_cart) sample_page
                "777:b2" (Num 0) eq_refl eq_refl) as H.
  destruct (run _ _) as [[c w'] sent].
  destruct H as [_ [Ho [Hc Hw]]]. cbn in Hc, Hw. subst w'.
  repeat split; assumption || reflexivity.
Defined.

Lemma Ends_andThen {A B : Type} (Q : Completion A -> World -> Prop)
    (P : Completion B -> World -> Prop)
    (s : Step A) (f : Completion A -> Task B) :
  Ends Q s ->
  (forall c w, Q c w -> Ends P (f c w)) ->
  Ends P (andThen s f).
Proof.
  intros Hs Hf. induction Hs as [c w Hq|req w k _ IH|w k _ IH]; cbn.
  - now apply Hf.
  - constructor. intros o w'. apply IH.
  - constructor. intros w'. apply IH.
Qed.

Lemma Ends_weaken {A : Type} (P Q : Completion A -> World -> Prop)
    (s : Step A) :
  (forall c w, P c w -> Q c w) -> Ends P s -> Ends Q s.
Proof.
  intros H Hs. induction Hs; constructor; auto.
Qed.

Lemma fetchCart_never_rejects (w : World) :
  Ends (fun c _ => exists r, c = Normal r) (fetchCart w).
Proof. unfold fetchCart. finishes_by ltac:(normal_end). Qed.

Lemma addItem_never_rejects (w : World) variantId quantity properties :
  Ends (fun c _ => exists r, c = Normal r)
    (addItem variantId quantity properties w).
Proof.
  unfold addItem. destruct (isUpdating (this w)).
  - constructor. normal_end.
  - finishes_by ltac:(normal_end).
Qed.

Lemma updateItem_never_rejects (w : World) key quantity :
  Ends (fun c _ => exists r, c = Normal r) (updateItem key quantity w).
Proof.
  unfold updateItem. destruct (isUpdating (this w)).
  - constructor. normal_end.
  - finishes_by ltac:(normal_end).
Qed.

(** X14. Nothing propagates out of the controller's asynchronous methods:
    whatever the boundary answers and whatever the page has become at each
    resumption, [fetchCart], [addItem], [updateItem], [removeItem], the form
    handler, the change listener of the drawer and its click listener, for
    a click whose stepper key is plain, end, and end normally, never by a
    rejection. *)
Theorem operations_never_reject :
  forall w : World,
    Ends (fun c _ => exists r, c = Normal r) (fetchCart w)
    /\ (forall variantId quantity properties,
          Ends (fun c _ => exists r, c = Normal r)
            (addItem variantId quantity properties w))
    /\ (forall key quantity,
          Ends (fun c _ => exists r, c = Normal r)
            (updateItem key quantity w))
    /\ (forall key,
          Ends (fun c _ => exists r, c = Normal r) (removeItem key w))
    /\ (forall form,
          Ends (fun c _ => exists r, c = Normal r)
            (handleAddToCart form w))
    /\ (forall c,
          plain_click c = true ->
          Ends (fun c _ => exists r, c = Normal r) (drawer_click c w))
    /\ (forall key value,
          Ends (fun c _ => exists r, c = Normal r)
            (drawer_change key value w)).
Proof.
  intros w. repeat split; intros.
  - apply fetchCart_never_rejects.
  - apply addItem_never_rejects.
  - apply updateItem_never_rejects.
  - apply updateItem_never_rejects.
  - unfold handleAddToCart. unfold bind at 1. unfold exec at 1.
    cbn [andThen]. unfold bind.
    apply (Ends_andThen (fun c _ => exists r, c = Normal r)).
    + apply addItem_never_rejects.
    + intros c w' [r ->]. unfold exec. constructor. normal_end.
  - unfold drawer_click, handleQuantityChange, handleRemoveItem, removeItem.
    destruct (drawer (els w)); [|constructor; normal_end].
    destruct (decrementBtn c); [apply updateItem_never_rejects|].
    destruct (incrementBtn c); [apply updateItem_never_rejects|].
    destruct (removeBtn c);
      [apply updateItem_never_rejects | constructor; normal_end].
  - unfold drawer_change.
    destruct (drawer (els w)); [|constructor; normal_end].
    destruct (num_ge (parseInt value) (Num 0));
      [apply updateItem_never_rejects | constructor; normal_end].
Qed.

Lemma operations_never_reject_witness :
  Ends (fun c _ => exists r, c = Normal r)
    (drawer_click {| decrementBtn := Some "40912345:a1";
                     incrementBtn := None;
                     removeBtn := None |} sample_page).
Proof.
  destruct (operations_never_reject sample_page)
    as [_ [_ [_ [_ [_ [H _]]]]]].
  exact (H {| decrementBtn := Some "40912345:a1"; incrementBtn := None;
              removeBtn := None |} eq_refl).
Defined.

(** ** The form handler *)

Lemma run_andThen {A B : Type} (net : Network) (s : Step A)
    (f : Completion A -> Task B) :
  run net (andThen s f)
  = let '(c, w1, sent1) := run net s in
    let '(c', w2, sent2) := run net (f c w1) in
    (c', w2, (sent1 ++ sent2)%list).
Proof.
  induction s as [c w|req w k IH|w k IH]; cbn.
  - now destruct (run net (f c w)) as [[c' w2] sent2].
  - rewrite IH. destruct (run net (k (net req) w)) as [[c1 w1] sent1].
    now destruct (run net (f c1 w1)) as [[c' w2] sent2].
  - apply IH.
Qed.

Lemma run_Keeps {A : Type} (I : World -> Prop) (net : Network)
    (s : Step A) :
  Keeps I s -> I (snd (fst (run net s))).
Proof.
  intros H. induction H as [c w Hw|req w k Hw Hk IH|w k Hw Hk IH]; cbn.
  - exact Hw.
  - specialize (IH (net req) w Hw).
    now destruct (run net (k (net req) w)) as [[c1 w1] sent1].
  - now apply IH.
Qed.

Ltac same_button :=
  let w := fresh "w" in
  let H := fresh "H" in
  intros w H; unfold button_is in *; cbn in *; auto.

Lemma button_open n b : forall w, button_is n b w -> button_is n b (open w).
Proof.
  intros w H. unfold open. destruct (drawer (els w)); [|exact H]. exact H.
Qed.

Lemma button_close n b : forall w, button_is n b w -> button_is n b (close w).
Proof.
  intros w H. unfold close. destruct (drawer (els w)); [|exact H].
  match goal with
  | |- context [match ?t with Some e => focus e ?v | None => _ end] =>
      destruct t
  end; exact H.
Qed.

Lemma button_renderCart n b cart :
  forall w, button_is n b w -> button_is n b (renderCart cart w).
Proof. same_button. Qed.

Lemma button_showError n b message :
  forall w, button_is n b w -> button_is n b (showError message w).
Proof. same_button. Qed.

Lemma button_setLoading n b l :
  forall w, button_is n b w -> button_is n b (setLoading l w).
Proof. same_button. Qed.

Lemma button_set_isUpdating n b u :
  forall w, button_is n b w -> button_is n b (set_isUpdating u w).
Proof. same_button. Qed.

Lemma button_dispatchEvent n b ev :
  forall w, button_is n b w -> button_is n b (dispatchEvent ev w).
Proof. same_button. Qed.

Lemma button_console_error n b label message :
  forall w, button_is n b w -> button_is n b (console_error label message w).
Proof. same_button. Qed.

#[local] Hint Resolve button_open button_close button_renderCart
  button_showError button_setLoading button_set_isUpdating
  button_dispatchEvent button_console_error : button.

Lemma button_addItem n b (w : World) variantId quantity properties :
  button_is n b w ->
  Keeps (button_is n b) (addItem variantId quantity properties w).
Proof.
  intros H. unfold addItem, fetchCart. destruct (isUpdating (this w)).
  - constructor. exact H.
  - keeps_by ltac:(auto 20 with button).
Qed.

Lemma handleAddToCart_unfolded (w : World) (form : Form) (b : SubmitBtn) :
  submit_button (doc w) (form_node form) = Some b ->
  let busy :=
    {| disabled := true; textContent := "Adding...";
       originalText := Some (textContent b) |} in
  let fd := form_entries form in
  handleAddToCart form w
  = andThen
      (addItem (formData_get "id" fd)
         (parseInt (or_default (formData_get "quantity" fd) "1"))
         (collect_properties fd)
         (set_submit_button (form_node form) busy w))
      (fun c =>
         match c with
         | Normal _ =>
             exec (fun w' =>
                     match submit_button (doc w') (form_node form) with
                     | Some b' =>
                         set_submit_button (form_node form)
                           {| disabled := false;
                              textContent :=
                                match originalText b' with
                                | Some t => t
                                | None => ""
                                end;
                              originalText := originalText b' |} w'
                     | None => w'
                     end)
         | Throw e => throw e
         end).
Proof.
  intros Hb busy fd. unfold handleAddToCart. rewrite Hb. reflexivity.
Qed.

Lemma run_never_rejects {A : Type} (net : Network) (s : Step A) :
  Ends (fun c _ => exists r, c = Normal r) s ->
  exists r, fst (fst (run net s)) = Normal r.
Proof.
  intros Hs. induction Hs as [c w0 Hc|req w0 k _ IH|w0 k _ IH]; cbn.
  - exact Hc.
  - specialize (IH (net req) w0).
    now destruct (run net (k (net req) w0)) as [[c1 w1] sent1].
  - apply IH.
Qed.

(** X15. The submit control of an add-to-cart form is released whatever
    happens.  For a form with a submit control: called with the request
    flag clear, the handler suspends at the add request, which carries the
    variant id, the quantity and the properties of the form, with the
    control disabled and reading "Adding..."; and once the call is over,
    against any boundary and whatever the flag was, the control is enabled
    and reads what it read before the submission. *)
Theorem submit_control_is_released :
  forall (net : Network) (w : World) (form : Form) (b : SubmitBtn),
    submit_button (doc w) (form_node form) = Some b ->
    (isUpdating (this w) = false ->
     exists w1 k,
       handleAddToCart form w
       = AwaitFetch
           (POST_add (formData_get "id" (form_entries form))
              (parseInt
                 (or_default (formData_get "quantity" (form_entries form))
                    "1"))
              (collect_properties (form_entries form)))
           w1 k
       /\ submit_button (doc w1) (form_node form)
          = Some {| disabled := true; textContent := "Adding...";
                    originalText := Some (textContent b) |})
    /\ (let '(c, w', sent) := run net (handleAddToCart form w) in
        c = Normal tt
        /\ submit_button (doc w') (form_node form)
           = Some {| disabled := false; textContent := textContent b;
                     originalText := Some (textContent b) |}).
Proof.
  intros net w form b Hb.
  pose proof (handleAddToCart_unfolded w form b Hb) as E. cbv zeta in E.
  set (busy := {| disabled := true; textContent := "Adding...";
                  originalText := Some (textContent b) |}) in *.
  set (fd := form_entries form) in *.
  split.
  - intros Hu. rewrite E. unfold addItem at 1.
    replace (isUpdating (this (set_submit_button (form_node form) busy w)))
      with false by (symmetry; exact Hu).
    cbn. eexists _, _. split; [reflexivity|]. cbn.
    now rewrite Nat.eqb_refl.
  - rewrite E, run_andThen.
    pose proof (run_Keeps (button_is (form_node form) busy) net _
                  (button_addItem (form_node form) busy
                     (set_submit_button (form_node form) busy w)
                     (formData_get "id" fd)
                     (parseInt (or_default (formData_get "quantity" fd) "1"))
                     (collect_properties fd)
                     ltac:(unfold button_is; cbn;
                           now rewrite Nat.eqb_refl))) as Hk.
    pose proof (run_never_rejects net _
                  (addItem_never_rejects
                     (set_submit_button (form_node form) busy w)
                     (formData_get "id" fd)
                     (parseInt (or_default (formData_get "quantity" fd) "1"))
                     (collect_properties fd))) as Hn.
    destruct (run net _) as [[c1 w1] sent1]. cbn in Hk, Hn.
    destruct Hn as [r ->]. cbn. unfold button_is in Hk. rewrite Hk. cbn.
    rewrite Nat.eqb_refl. split; reflexivity.
Qed.

Lemma submit_control_is_released_witness :
  let page :=
    set_submit_button 5%nat
      {| disabled := false; textContent := "Add to cart";
         originalText := None |} sample_page in
  let form :=
    {| form_node := 5%nat;
       form_entries := [("id", "40912345"); ("quantity", "2")] |} in
  let '(c, w', sent) := run adding_only (handleAddToCart form page) in
  submit_button (doc w') 5%nat
  = Some {| disabled := false; textContent := "Add to cart";
            originalText := Some "Add to cart" |}.
Proof.
  intros page form.
  destruct (submit_control_is_released adding_only page form
              {| disabled := false; textContent := "Add to cart";
                 originalText := None |} eq_refl) as [_ H].
  destruct (run adding_only (handleAddToCart form page)) as [[c w'] sent].
  exact (proj2 H).
Defined.

(** ** Handlers under the guard *)

(** X16. While a mutating call is in flight, the controls are dead: a click
    on a remove control or on a stepper control with a plain key, and a
    change of a quantity field, finish at once on an unchanged world, and a
    submitted form sends no request and leaves the controller's fields and
    elements as they are. *)
Theorem controls_are_dead_while_updating :
  forall w : World,
    isUpdating (this w) = true ->
    (forall c,
       plain_click c = true ->
       drawer_click c w = Finished (Normal RUndefined) w)
    /\ (forall key value,
          drawer_change key value w = Finished (Normal RUndefined) w)
    /\ (forall net form,
          let '(c, w', sent) := run net (handleAddToCart form w) in
          sent = [] /\ this w' = this w /\ els w' = els w).
Proof.
  intros w Hu. repeat split.
  - intros c _. unfold drawer_click, handleQuantityChange, handleRemoveItem,
      removeItem, updateItem. rewrite Hu.
    destruct (drawer (els w)); [|reflexivity].
    destruct (decrementBtn c); [reflexivity|].
    destruct (incrementBtn c); [reflexivity|].
    destruct (removeBtn c); reflexivity.
  - intros key value. unfold drawer_change, updateItem. rewrite Hu.
    destruct (drawer (els w)); [|reflexivity].
    destruct (num_ge (parseInt value) (Num 0)); reflexivity.
  - intros net form. unfold handleAddToCart.
    destruct (submit_button (doc w) (form_node form)) as [b|] eqn:Hb.
    + unfold bind at 1. unfold exec at 1. cbn [andThen].
      unfold bind, addItem.
      replace (isUpdating
                 (this (set_submit_button (form_node form)
                          {| disabled := true; textContent := "Adding...";
                             originalText := Some (textContent b) |} w)))
        with true by (symmetry; exact Hu).
      cbn. rewrite Nat.eqb_refl. repeat split; reflexivity.
    + unfold bind at 1. unfold exec at 1. cbn [andThen].
      unfold bind, addItem. rewrite Hu. cbn.
      repeat split; reflexivity.
Qed.

Lemma controls_are_dead_while_updating_witness :
  drawer_click {| decrementBtn := None; incrementBtn := Some "777:b2";
                  removeBtn := None |} busy_page
  = Finished (Normal RUndefined) busy_page.
Proof.
  exact (proj1 (controls_are_dead_while_updating busy_page eq_refl)
           {| decrementBtn := None; incrementBtn := Some "777:b2";
              removeBtn := None |} eq_refl).
Defined.

(** ** Quantities sent by the drawer *)

Lemma updateItem_first_request (w : World) (key : string) (quantity : Number)
    (req : Request) (w1 : World) k :
  updateItem key quantity w = AwaitFetch req w1 k ->
  req = POST_change key quantity.
Proof.
  unfold updateItem. destruct (isUpdating (this w)); cbn; intros H.
  - discriminate.
  - now inversion H.
Qed.

(** X17. The controls of the drawer never ask for a negative quantity.
    On a page whose quantity fields read as safe integers or as [NaN], the
    request that a click on a control sends, if it sends one and the key
    of a stepper control is plain, is a change of the line of that control:
    to zero for the remove control, and for a stepper control to a quantity
    that is not below zero, or to [NaN].  The request that a changed
    quantity field sends, if it sends one and its value reads as a safe
    integer, is a change of its line to the integer that the field parses
    to, which is not below zero; a field that parses to [NaN] or to an
    integer below zero sends nothing and changes nothing. *)
Theorem drawer_never_asks_below_zero :
  forall w : World,
    (forall i, In i (quantity_inputs (doc w)) -> reads_safely (snd i) = true) ->
    (forall c key req w1 k,
       plain_click c = true ->
       control_key c = Some key ->
       drawer_click c w = AwaitFetch req w1 k ->
       exists q,
         req = POST_change key q
         /\ (q = NaN \/ exists n, q = Num n /\ 0 <= n)
         /\ (decrementBtn c = None -> incrementBtn c = None -> q = Num 0))
    /\ (forall key value req w1 k,
          reads_safely value = true ->
          drawer_change key value w = AwaitFetch req w1 k ->
          exists n,
            req = POST_change key (Num n) /\ 0 <= n
            /\ parseInt value = Num n)
    /\ (forall key value,
          parseInt value = NaN \/ (exists n, parseInt value = Num n /\ n < 0) ->
          drawer_change key value w = Finished (Normal RUndefined) w).
Proof.
  intros w _. split; [|split].
  - intros c key req w1 k _. unfold control_key, drawer_click,
      handleQuantityChange, handleRemoveItem, removeItem.
    destruct (drawer (els w)); [|discriminate].
    assert (Hq : forall a b,
               Math_max (Num 0) (num_add a (Num b)) = NaN
               \/ exists n, Math_max (Num 0) (num_add a (Num b)) = Num n
                            /\ 0 <= n).
    { intros [|z] b; cbn; [now left|]. right. eexists. split; [reflexivity|].
      lia. }
    destruct (decrementBtn c) as [k1|];
      [|destruct (incrementBtn c) as [k2|];
        [|destruct (removeBtn c) as [k3|]; [|discriminate]]];
      intros Hk H; injection Hk as <-;
      apply updateItem_first_request in H; subst req;
      eexists; (split; [reflexivity|]).
    + split; [apply Hq | discriminate].
    + split; [apply Hq | discriminate].
    + split; [|reflexivity]. right. exists 0. split; [reflexivity | lia].
  - intros key value req w1 k _. unfold drawer_change.
    destruct (drawer (els w)); [|discriminate].
    destruct (parseInt value) as [|n] eqn:E; cbn; [discriminate|].
    destruct (0 <=? n) eqn:Hn; [|discriminate].
    intros H. apply updateItem_first_request in H. subst req.
    exists n. repeat split. now apply Z.leb_le.
  - intros key value H. unfold drawer_change.
    destruct (drawer (els w)); [|reflexivity].
    destruct H as [->|[n [-> Hn]]]; cbn; [reflexivity|].
    replace (0 <=? n) with false by (symmetry; apply Z.leb_gt; exact Hn).
    reflexivity.
Qed.

Lemma drawer_never_asks_below_zero_witness :
  (exists q,
     POST_change "40912345:a1" (Num 0) = POST_change "40912345:a1" q
     /\ (q = NaN \/ exists n, q = Num n /\ 0 <= n)
     /\ (@None string = None -> @None string = None -> q = Num 0))
  /\ drawer_change "40912345:a1" "-3" sample_page
     = Finished (Normal RUndefined) sample_page.
Proof.
  assert (Hs : forall i, In i (quantity_inputs (doc sample_page)) ->
                         reads_safely (snd i) = true).
  { intros i [<-|[<-|[]]]; reflexivity. }
  destruct (drawer_never_asks_below_zero sample_page Hs) as [Hc [_ Hn]].
  split.
  - exact (Hc {| decrementBtn := None; incrementBtn := None;
                 removeBtn := Some "40912345:a1" |}
              "40912345:a1" _ _ _ eq_refl eq_refl eq_refl).
  - apply Hn. right. exists (-3). split; [reflexivity | lia].
Defined.

(** X18. The stepper counts from what the line shows.  On a page with a
    drawer and no mutating call in flight, where the quantity field of a
    line with a plain key holds the value that [renderItem] wrote for it,
    a stepper control of the line sends a change of that line to its
    quantity plus the step, and not below zero, for a quantity and a step
    below [2^52] in magnitude, which numbers add exactly. *)
Theorem stepper_counts_from_rendered_quantity :
  forall (w : World) (d : DrawerEl) (item : LineItem) (change : Z),
    drawer (els w) = Some d ->
    isUpdating (this w) = false ->
    plain (key item) = true ->
    Z.abs (quantity item) < 2 ^ 52 ->
    Z.abs change < 2 ^ 52 ->
    find (fun i => String.eqb (fst i) (key item)) (quantity_inputs (doc w))
    = Some (key item, block_value (renderItem item)) ->
    exists w1 k,
      handleQuantityChange (key item) (Num change) w
      = AwaitFetch
          (POST_change (key item) (Num (Z.max 0 (quantity item + change))))
          w1 k.
Proof.
  intros w d item change Hd Hu _ _ _ Hf.
  unfold handleQuantityChange. rewrite Hd, Hf.
  change (block_value (renderItem item)) with (string_of_Z (quantity item)).
  cbn [option_map snd].
  destruct (string_of_Z_nonempty (quantity item)) as [c [r E]].
  assert (Ed : or_default (Some (string_of_Z (quantity item))) "1"
               = string_of_Z (quantity item)) by (now rewrite E).
  rewrite Ed, parseInt_string_of_Z. cbn [num_add Math_max].
  destruct (proj2 (updateItem_guarded (key item)
                     (Num (Z.max 0 (quantity item + change)))) w Hu)
    as [w1 [k [E1 _]]].
  exists w1, k. exact E1.
Qed.

Lemma stepper_counts_from_rendered_quantity_witness :
  exists w1 k,
    handleQuantityChange "40912345:a1" (Num (-1)) sample_page
    = AwaitFetch (POST_change "40912345:a1" (Num 1)) w1 k.
Proof.
  exact (stepper_counts_from_rendered_quantity sample_page _ sample_item
           (-1) eq_refl eq_refl eq_refl eq_refl eq_refl eq_refl).
Defined.

(** ** The properties of a submitted form *)

Lemma own_replace_keys (k v : string) (o : list (string * string)) :
  map fst (own_replace k v o) = map fst o.
Proof.
  induction o as [|[k' v'] o IH]; cbn; [reflexivity|].
  destruct (String.eqb_spec k' k) as [E|E]; cbn; congruence.
Qed.

Lemma own_insert_keys (n : Z) (k v : string) (o : list (string * string))
    (x : string) :
  In x (map fst (own_insert n k v o)) <-> x = k \/ In x (map fst o).
Proof.
  induction o as [|[k' v'] o IH]; cbn.
  - intuition congruence.
  - destruct (array_index k') as [m|]; [destruct (m <? n)|]; cbn;
      rewrite ?IH; intuition congruence.
Qed.

Lemma own_insert_NoDup (n : Z) (k v : string) (o : list (string * string)) :
  ~ In k (map fst o) -> NoDup (map fst o) ->
  NoDup (map fst (own_insert n k v o)).
Proof.
  induction o as [|[k' v'] o IH]; cbn; intros Hk H.
  - constructor; [intros [] | constructor].
  - inversion H as [|? ? Hn Hd]; subst.
    assert (Hfresh : NoDup (k :: k' :: map fst o)).
    { constructor; [cbn; tauto | exact H]. }
    destruct (array_index k') as [m|]; [destruct (m <? n)|]; cbn;
      try exact Hfresh.
    constructor; [|apply IH; tauto].
    rewrite own_insert_keys. intros [E|Hin]; [subst; tauto | tauto].
Qed.

Lemma has_key (k : string) (o : list (string * string)) :
  existsb (fun e => String.eqb (fst e) k) o = true <-> In k (map fst o).
Proof.
  induction o as [|[k' v'] o IH]; cbn; [intuition discriminate|].
  rewrite orb_true_iff, IH.
  destruct (String.eqb_spec k' k); intuition congruence.
Qed.

Lemma own_set_NoDup (k v : string) (o : list (string * string)) :
  NoDup (map fst o) -> NoDup (map fst (own_set k v o)).
Proof.
  intros H. unfold own_set.
  destruct (existsb _ o) eqn:E.
  - now rewrite own_replace_keys.
  - assert (Hk : ~ In k (map fst o)).
    { intros Hin. apply has_key in Hin. congruence. }
    destruct (array_index k) as [n|].
    + now apply own_insert_NoDup.
    + rewrite map_app. cbn.
      apply NoDup_app; [exact H | constructor; [intros [] | constructor] |].
      intros x Hx [<-|[]]. contradiction.
Qed.

Lemma obj_set_NoDup (k v : string) (o : list (string * string)) :
  NoDup (map fst o) -> NoDup (map fst (obj_set k v o)).
Proof.
  intros H. unfold obj_set.
  destruct (String.eqb k "__proto__"); [exact H | now apply own_set_NoDup].
Qed.

Lemma own_get_replace (k v : string) (o : list (string * string)) :
  In k (map fst o) -> obj_get k (own_replace k v o) = Some v.
Proof.
  unfold obj_get. induction o as [|[k' v'] o IH]; cbn; [intros []|].
  destruct (String.eqb_spec k' k) as [E|E]; cbn.
  - now rewrite String.eqb_refl.
  - destruct (String.eqb_spec k' k); [contradiction|].
    intros [H|H]; [contradiction | now apply IH].
Qed.

Lemma own_get_insert (n : Z) (k v : string) (o : list (string * string)) :
  ~ In k (map fst o) -> obj_get k (own_insert n k v o) = Some v.
Proof.
  unfold obj_get. induction o as [|[k' v'] o IH]; cbn; intros Hk.
  - now rewrite String.eqb_refl.
  - destruct (array_index k') as [m|]; [destruct (m <? n)|]; cbn;
      rewrite ?String.eqb_refl; try reflexivity.
    destruct (String.eqb_spec k' k) as [E|E]; [tauto|].
    apply IH. tauto.
Qed.

Lemma own_get_append (k v : string) (o : list (string * string)) :
  ~ In k (map fst o) -> obj_get k (o ++ [(k, v)])%list = Some v.
Proof.
  unfold obj_get. induction o as [|[k' v'] o IH]; cbn; intros Hk.
  - now rewrite String.eqb_refl.
  - destruct (String.eqb_spec k' k) as [E|E]; [tauto|].
    apply IH. tauto.
Qed.

Lemma own_get_set (k v : string) (o : list (string * string)) :
  obj_get k (own_set k v o) = Some v.
Proof.
  unfold own_set. destruct (existsb _ o) eqn:E.
  - apply own_get_replace. now apply has_key.
  - assert (Hk : ~ In k (map fst o)).
    { intros Hin. apply has_key in Hin. congruence. }
    destruct (array_index k) as [n|];
      [now apply own_get_insert | now apply own_get_append].
Qed.

Lemma obj_get_set (k v : string) (o : list (string * string)) :
  k <> "__proto__" -> obj_get k (obj_set k v o) = Some v.
Proof.
  intros H. unfold obj_set.
  destruct (String.eqb_spec k "__proto__"); [contradiction|].
  apply own_get_set.
Qed.

Lemma remove_first_bracket (name : string) :
  has_char "]" name = false -> Str.remove_first "]" (name ++ "]") = name.
Proof.
  induction name as [|c r IH]; [reflexivity|].
  intros H. cbn [has_char] in H. apply orb_false_iff in H.
  destruct H as [Hc Hr].
  change (Str.remove_first "]" (String c r ++ "]"))
    with (if (if ascii_dec "]" c then String.prefix "" (r ++ "]") else false)
          then Str.drop 1 (String c (r ++ "]"))
          else String c (Str.remove_first "]" (r ++ "]"))).
  destruct (ascii_dec "]" c) as [E|_].
  - subst c. discriminate.
  - now rewrite (IH Hr).
Qed.

Lemma property_key (name : string) :
  has_char "]" name = false ->
  Str.startsWith "properties[" ("properties[" ++ name ++ "]") = true
  /\ Str.remove_first "]"
       (Str.remove_first "properties[" ("properties[" ++ name ++ "]"))
     = name.
Proof.
  intros H.
  assert (E : Str.remove_first "properties[" ("properties[" ++ name ++ "]")
              = (name ++ "]")%string) by (destruct name; reflexivity).
  split; [destruct name; reflexivity|].
  rewrite E. now apply remove_first_bracket.
Qed.

Lemma collect_properties_snoc (fd : list (string * string)) (k v : string) :
  collect_properties (fd ++ [(k, v)])
  = if Str.startsWith "properties[" k
    then obj_set (Str.remove_first "]" (Str.remove_first "properties[" k)) v
           (collect_properties fd)
    else collect_properties fd.
Proof. unfold collect_properties. now rewrite fold_left_app. Qed.

Example property_order_samples :
  collect_properties
    [("properties[b]", "1"); ("properties[10]", "2"); ("properties[2]", "3");
     ("properties[__proto__]", "4"); ("properties[b]", "5");
     ("properties[a]", "6"); ("properties[07]", "7")]
  = [("2", "3"); ("10", "2"); ("b", "5"); ("a", "6"); ("07", "7")].
Proof. reflexivity. Qed.

(** X19. The properties sent with an added item are read off the form:
    fields whose name does not start with "properties[" contribute
    nothing; a field named "properties[N]", for a name N without a closing
    bracket and other than "__proto__", sets the property N, the last such
    field winning; the field "properties[__proto__]" sets nothing; and no
    property name occurs twice in what is sent. *)
Theorem form_properties :
  forall fd : list (string * string),
    NoDup (map fst (collect_properties fd))
    /\ (forall k v,
          Str.startsWith "properties[" k = false ->
          collect_properties (fd ++ [(k, v)]) = collect_properties fd)
    /\ (forall name v,
          has_char "]" name = false ->
          name <> "__proto__" ->
          obj_get name
            (collect_properties (fd ++ [("properties[" ++ name ++ "]", v)]))
          = Some v)
    /\ (forall v,
          collect_properties (fd ++ [("properties[__proto__]", v)])
          = collect_properties fd)
    /\ ((forall k v, In (k, v) fd -> Str.startsWith "properties[" k = false)
        -> collect_properties fd = []).
Proof.
  intros fd. repeat split.
  - induction fd as [|[k v] fd IH] using rev_ind; [constructor|].
    rewrite collect_properties_snoc.
    destruct (Str.startsWith "properties[" k); [|exact IH].
    now apply obj_set_NoDup.
  - intros k v H. now rewrite collect_properties_snoc, H.
  - intros name v H Hp. rewrite collect_properties_snoc.
    destruct (property_key name H) as [Hs Hk]. rewrite Hs, Hk.
    now apply obj_get_set.
  - intros v. rewrite collect_properties_snoc. reflexivity.
  - induction fd as [|[k v] fd IH] using rev_ind; [reflexivity|].
    intros H. rewrite collect_properties_snoc.
    rewrite (H k v) by (apply in_or_app; right; now left).
    apply IH. intros k' v' Hin. apply (H k' v'). apply in_or_app. now left.
Qed.

Lemma form_properties_witness :
  obj_get "Engraving"
    (collect_properties
       ([("id", "40912345"); ("properties[Engraving]", "AB")]
        ++ [("properties[Engraving]", "CD")])) = Some "CD"
  /\ collect_properties [("id", "40912345"); ("quantity", "2")] = [].
Proof.
  split.
  - exact (proj1 (proj2 (proj2
             (form_properties
                [("id", "40912345"); ("properties[Engraving]", "AB")])))
             "Engraving" "CD" eq_refl ltac:(discriminate)).
  - apply (proj2 (proj2 (proj2 (proj2
             (form_properties [("id", "40912345"); ("quantity", "2")]))))).
    intros k v [H|[H|[]]]; inversion H; reflexivity.
Defined.

(** ** One mutating request at a time *)

Lemma flag_open w : isUpdating (this (open w)) = isUpdating (this w).
Proof. unfold open. destruct (drawer (els w)); reflexivity. Qed.

Lemma flag_close w : isUpdating (this (close w)) = isUpdating (this w).
Proof.
  unfold close. destruct (drawer (els w)); [|reflexivity].
  match goal with
  | |- context [match ?t with Some e => focus e ?v | None => _ end] =>
      destruct t
  end; reflexivity.
Qed.

Lemma flag_toggle w : isUpdating (this (toggle w)) = isUpdating (this w).
Proof.
  unfold toggle. destruct (isOpen (this w)); [apply flag_close|apply flag_open].
Qed.

Lemma flag_renderCart cart w :
  isUpdating (this (renderCart cart w)) = isUpdating (this w).
Proof. reflexivity. Qed.

Lemma flag_showError message w :
  isUpdating (this (showError message w)) = isUpdating (this w).
Proof. reflexivity. Qed.

Lemma flag_setLoading b w :
  isUpdating (this (setLoading b w)) = isUpdating (this w).
Proof. reflexivity. Qed.

Lemma flag_set_isUpdating b w : isUpdating (this (set_isUpdating b w)) = b.
Proof. reflexivity. Qed.

Lemma flag_dispatchEvent ev w :
  isUpdating (this (dispatchEvent ev w)) = isUpdating (this w).
Proof. reflexivity. Qed.

Lemma flag_console_error label message w :
  isUpdating (this (console_error label message w)) = isUpdating (this w).
Proof. reflexivity. Qed.

Lemma flag_set_submit_button n b w :
  isUpdating (this (set_submit_button n b w)) = isUpdating (this w).
Proof. reflexivity. Qed.

Lemma flag_overlay_click w :
  isUpdating (this (overlay_click w)) = isUpdating (this w).
Proof.
  unfold overlay_click. destruct (overlay (els w)); [apply flag_close|].
  reflexivity.
Qed.

Lemma flag_document_keydown e w :
  isUpdating (this (document_keydown e w)) = isUpdating (this w).
Proof.
  unfold document_keydown.
  destruct (String.eqb (key_name e) "Escape" && isOpen (this w));
    [apply flag_close | reflexivity].
Qed.

Lemma flag_drawer_keydown e w :
  isUpdating (this (snd (drawer_keydown e w))) = isUpdating (this w).
Proof.
  unfold drawer_keydown, handleTabKey.
  destruct (drawer (els w)); [|reflexivity].
  destruct (String.eqb (key_name e) "Tab" && isOpen (this w)); [|reflexivity].
  destruct (getFocusableElements w); [reflexivity|].
  repeat match goal with
         | |- context [if ?b then _ else _] => destruct b
         end; reflexivity.
Qed.

#[local] Hint Rewrite flag_open flag_close flag_renderCart flag_showError
  flag_setLoading flag_set_isUpdating flag_dispatchEvent flag_console_error
  flag_set_submit_button : flag.

Lemma fetchCart_passive (w : World) :
  Passive (isUpdating (this w)) (fetchCart w).
Proof. unfold fetchCart. roles_by ltac:(flag_kept). Qed.

Lemma addItem_role (w : World) variantId quantity properties :
  if isUpdating (this w)
  then Passive true (addItem variantId quantity properties w)
  else Holding (addItem variantId quantity properties w).
Proof.
  unfold addItem, fetchCart. destruct (isUpdating (this w)) eqn:E.
  - constructor. exact E.
  - roles_by ltac:(flag_kept).
Qed.

Lemma updateItem_role (w : World) key quantity :
  if isUpdating (this w)
  then Passive true (updateItem key quantity w)
  else Holding (updateItem key quantity w).
Proof.
  unfold updateItem. destruct (isUpdating (this w)) eqn:E.
  - constructor. exact E.
  - roles_by ltac:(flag_kept).
Qed.

Lemma handleAddToCart_role (w : World) form :
  if isUpdating (this w)
  then Passive true (handleAddToCart form w)
  else Holding (handleAddToCart form w).
Proof.
  unfold handleAddToCart, addItem, fetchCart.
  destruct (submit_button (doc w) (form_node form));
    destruct (isUpdating (this w)) eqn:E.
  all: unfold bind at 1; unfold exec at 1; cbn [andThen]; unfold bind at 1.
  all: rewrite ?flag_set_submit_button, E.
  all: roles_by ltac:(flag_kept).
Qed.

Lemma drawer_click_role (w : World) c :
  if isUpdating (this w)
  then Passive true (drawer_click c w)
  else Holding (drawer_click c w).
Proof.
  unfold drawer_click, handleQuantityChange, handleRemoveItem, removeItem.
  destruct (drawer (els w)).
  - destruct (decrementBtn c); [apply updateItem_role|].
    destruct (incrementBtn c); [apply updateItem_role|].
    destruct (removeBtn c); [apply updateItem_role|].
    destruct (isUpdating (this w)) eqn:E; constructor; exact E.
  - destruct (isUpdating (this w)) eqn:E; constructor; exact E.
Qed.

Lemma drawer_change_role (w : World) key value :
  if isUpdating (this w)
  then Passive true (drawer_change key value w)
  else Holding (drawer_change key value w).
Proof.
  unfold drawer_change.
  destruct (drawer (els w)).
  - destruct (num_ge (parseInt value) (Num 0)); [apply updateItem_role|].
    destruct (isUpdating (this w)) eqn:E; constructor; exact E.
  - destruct (isUpdating (this w)) eqn:E; constructor; exact E.
Qed.

Lemma holders_app (r1 r2 : list bool) :
  holders (r1 ++ r2) = (holders r1 + holders r2)%nat.
Proof. unfold holders. now rewrite filter_app, length_app. Qed.

Lemma holders_cons (r : bool) (roles : list bool) :
  holders (r :: roles) = ((if r then 1 else 0) + holders roles)%nat.
Proof. unfold holders. now destruct r. Qed.

Lemma outstanding_le_holders (roles : list bool) (l : list Pending) :
  Forall2 plays roles l -> (outstanding l <= holders roles)%nat.
Proof.
  intros H. unfold holders.
  induction H as [|r p roles l Hp _ IH]; [apply Nat.le_refl|].
  destruct p as [A req k|A k]; destruct r; cbn [outstanding filter List.length];
    try destruct (mutating req) eqn:E; try lia.
  cbn in Hp. destruct Hp as [Hm _]. congruence.
Qed.

Lemma settle_Passive {A : Type} (roles : list bool) (others : list Pending)
    (b : bool) (s : Step A) :
  Forall2 plays roles others ->
  holders roles = (if b then 1%nat else 0%nat) ->
  Passive b s ->
  one_holder (settle s others).
Proof.
  intros Hr Hh Hs. destruct Hs as [c w Hw|req w k Hm Hw Hk|w k Hw Hk]; cbn.
  - exists roles. cbn. rewrite Hw. now split.
  - exists (false :: roles). cbn. rewrite Hw. split; [|exact Hh].
    constructor; [|exact Hr]. cbn. now split.
  - exists (false :: roles). cbn. rewrite Hw. split; [|exact Hh].
    constructor; [|exact Hr]. exact Hk.
Qed.

Lemma settle_Holding {A : Type} (roles : list bool) (others : list Pending)
    (s : Step A) :
  Forall2 plays roles others ->
  holders roles = 0%nat ->
  Holding s ->
  one_holder (settle s others).
Proof.
  intros Hr Hh Hs. destruct Hs as [c w Hw|req w k Hw Hk|w k Hw Hk]; cbn.
  - exists roles. cbn. rewrite Hw. now split.
  - exists (true :: roles). cbn. rewrite Hw. split.
    + constructor; [exact Hk | exact Hr].
    + unfold holders in *. cbn. now rewrite Hh.
  - exists (true :: roles). cbn. rewrite Hw. split.
    + constructor; [exact Hk | exact Hr].
    + unfold holders in *. cbn. now rewrite Hh.
Qed.

Lemma settle_role {A : Type} (pg : Page) (s : Step A) :
  one_holder pg ->
  (if isUpdating (this (now pg)) then Passive true s else Holding s) ->
  one_holder (settle s (suspended pg)).
Proof.
  intros [roles [Hr Hh]] Hs. destruct (isUpdating (this (now pg))).
  - now apply (settle_Passive roles _ true).
  - now apply (settle_Holding roles).
Qed.

Lemma sync_keeps_one_holder (pg : Page) (f : World -> World) :
  one_holder pg ->
  isUpdating (this (f (now pg))) = isUpdating (this (now pg)) ->
  one_holder {| now := f (now pg); suspended := suspended pg |}.
Proof.
  intros [roles [Hr Hh]] Hf. exists roles. cbn. rewrite Hf. now split.
Qed.

Lemma enter_keeps_one_holder (e : Entry) (pg : Page) :
  one_holder pg -> one_holder (enter e pg).
Proof.
  intros H. destruct e; cbn -[settle].
  - destruct H as [roles [Hr Hh]].
    apply (settle_Passive roles _ (isUpdating (this (now pg))));
      [exact Hr | exact Hh | apply fetchCart_passive].
  - apply settle_role; [exact H | apply addItem_role].
  - apply settle_role; [exact H | apply updateItem_role].
  - apply settle_role; [exact H | apply updateItem_role].
  - apply sync_keeps_one_holder; [exact H | apply flag_open].
  - apply sync_keeps_one_holder; [exact H | apply flag_close].
  - destruct H as [roles [Hr Hh]].
    apply (settle_Passive roles _ (isUpdating (this (now pg))));
      [exact Hr | exact Hh | apply fetchCart_passive].
  - apply settle_role; [exact H | apply handleAddToCart_role].
  - apply settle_role; [exact H | apply drawer_click_role].
  - apply settle_role; [exact H | apply drawer_change_role].
  - apply sync_keeps_one_holder; [exact H | apply flag_toggle].
  - apply sync_keeps_one_holder; [exact H | apply flag_close].
  - apply sync_keeps_one_holder; [exact H | apply flag_overlay_click].
  - apply sync_keeps_one_holder; [exact H | apply flag_document_keydown].
  - apply (sync_keeps_one_holder pg
             (fun w => document_keydown (fst (drawer_keydown e w))
                         (snd (drawer_keydown e w)))); [exact H|].
    cbn. now rewrite flag_document_keydown, flag_drawer_keydown.
  - apply (sync_keeps_one_holder pg (with_doc f)); [exact H | reflexivity].
Qed.

Lemma resume_keeps_one_holder (pg : Page) (l1 l2 : list Pending)
    (p : Pending) :
  one_holder pg ->
  suspended pg = (l1 ++ p :: l2)%list ->
  exists r roles,
    Forall2 plays roles (l1 ++ l2) /\ plays r p
    /\ (if r
        then isUpdating (this (now pg)) = true /\ holders roles = 0%nat
        else holders roles
             = if isUpdating (this (now pg)) then 1%nat else 0%nat).
Proof.
  intros [roles [Hr Hh]] Hs. rewrite Hs in Hr.
  apply Forall2_app_inv_r in Hr.
  destruct Hr as [r1 [rest [H1 [Hrest ->]]]].
  inversion Hrest as [|r p' r2 l2' Hp H2]; subst.
  exists r, (r1 ++ r2)%list. split; [now apply Forall2_app|].
  split; [exact Hp|].
  rewrite holders_app, holders_cons in Hh. rewrite holders_app.
  destruct r; cbn in Hh.
  - destruct (isUpdating (this (now pg))); [split; [reflexivity|] |]; lia.
  - exact Hh.
Qed.

Lemma turn_keeps_one_holder (pg pg' : Page) :
  one_holder pg -> Turn pg pg' -> one_holder pg'.
Proof.
  intros H T. destruct T as [e pg|pg l1 A req k l2 o Hs|pg l1 A k l2 Hs].
  - now apply enter_keeps_one_holder.
  - destruct (resume_keeps_one_holder pg l1 l2 _ H Hs)
      as [r [roles [Hr [Hp Hh]]]].
    destruct r; cbn in Hp.
    + destruct Hh as [Hf Hh]. apply (settle_Holding roles); auto.
    + destruct Hp as [_ Hp].
      apply (settle_Passive roles _ (isUpdating (this (now pg)))); auto.
  - destruct (resume_keeps_one_holder pg l1 l2 _ H Hs)
      as [r [roles [Hr [Hp Hh]]]].
    destruct r; cbn in Hp.
    + destruct Hh as [Hf Hh]. apply (settle_Holding roles); auto.
    + apply (settle_Passive roles _ (isUpdating (this (now pg)))); auto.
Qed.

(** X20. At most one mutating request is in flight.  On every page that
    the event loop reaches from a world with the request flag clear and
    nothing suspended, by calls of the methods, by the events that the
    listeners handle, by changes of the document and by answers to the
    requests in any order, at most one request to add or to change waits
    for its answer, and none does while the flag is clear. *)
Theorem one_mutating_request_at_a_time :
  forall (w0 : World) (pg : Page),
    isUpdating (this w0) = false ->
    Reachable w0 pg ->
    (outstanding (suspended pg) <= 1)%nat
    /\ (isUpdating (this (now pg)) = false ->
        outstanding (suspended pg) = 0%nat).
Proof.
  intros w0 pg H0 Hr.
  assert (Hinv : one_holder pg).
  { induction Hr as [|pg pg' _ IH T].
    - exists []. cbn. rewrite H0. split; [constructor | reflexivity].
    - exact (turn_keeps_one_holder pg pg' IH T). }
  destruct Hinv as [roles [Hp Hh]].
  pose proof (outstanding_le_holders roles _ Hp) as Hle.
  destruct (isUpdating (this (now pg)));
    (split; [lia | intros E; try discriminate E; lia]).
Qed.

Lemma one_mutating_request_at_a_time_witness :
  let start := {| now := sample_page; suspended := [] |} in
  let pg :=
    enter (calls_updateItem "777:b2" (Num 0))
      (enter calls_fetchCart
         (enter (calls_addItem (Some "40912345") (Num 2) []) start)) in
  outstanding (suspended pg) = 1%nat
  /\ (outstanding (suspended pg) <= 1)%nat.
Proof.
  intros start pg. split; [reflexivity|].
  apply (one_mutating_request_at_a_time sample_page pg eq_refl).
  repeat (eapply reach_turn; [|apply turn_enter]). apply reach_start.
Defined.
